(** * CU lookup tool: hierarchy expansion and description lookup

    A shallow embedding of [lookupstreamlit.py]: the cleaning done by
    [load_data], the recursive expansion [recursive_breakdown], the
    two-tier lookup [get_sc_description], the legend accessor and the
    listings search, followed by the properties established for them.

    Modelling conventions.
    - A pandas cell is a [cell]: either the missing marker [NaN] or a
      text value.  The identifier columns are text columns (the cleaning
      code applies [str] methods to them), so [str(x)] of a present cell
      is the text itself and [str(NaN)] is ["nan"].
    - A data frame is the list of its rows, in stored order.
    - Python raises [RecursionError] when the interpreter's recursion
      limit is exceeded; the embedding carries that limit as the [depth]
      argument of [recursive_breakdown]. *)

From Stdlib Require Import String Ascii List Bool Arith Lia ZArith Relations.
Import ListNotations.
Open Scope string_scope.
Open Scope list_scope.

Set Implicit Arguments.

(** ** Cells *)

Inductive cell : Type :=
| NaN : cell
| Str : string -> cell.

(** [pd.isna] / [pd.notna] ([pd.isnull] / [pd.notnull]). *)
Definition isna (x : cell) : bool :=
  match x with NaN => true | Str _ => false end.

Definition notna (x : cell) : bool := negb (isna x).

(** [str(x)], also what [astype(str)] does cell by cell. *)
Definition py_str (x : cell) : string :=
  match x with NaN => "nan" | Str s => s end.

(** Element-wise [column == text]: a missing cell equals nothing. *)
Definition cell_is (x : cell) (s : string) : bool :=
  match x with NaN => false | Str t => String.eqb t s end.

(** ** Text helpers *)

(** [s.lstrip("0")] *)
Fixpoint lstrip0 (s : string) : string :=
  match s with
  | EmptyString => EmptyString
  | String c s' => if Ascii.eqb c "0" then lstrip0 s' else s
  end.

(** Lower-casing of one character: the letters A-Z are folded, every
    other byte is kept.  This is [str.lower] on plain ASCII text; on
    other text it is used only to test for the prefix sc000, which no
    letter outside A-Z folds into. *)
Definition lower_ascii (c : ascii) : ascii :=
  let n := nat_of_ascii c in
  if ((65 <=? n)%nat && (n <=? 90)%nat)%bool then ascii_of_nat (n + 32) else c.

(** [s.lower()] *)
Fixpoint lower (s : string) : string :=
  match s with
  | EmptyString => EmptyString
  | String c s' => String (lower_ascii c) (lower s')
  end.

(** [s.startswith(p)] *)
Fixpoint startswith (s p : string) : bool :=
  match p, s with
  | EmptyString, _ => true
  | String _ _, EmptyString => false
  | String a p', String b s' => Ascii.eqb a b && startswith s' p'
  end.

(** [s[n:]] *)
Fixpoint slice_from (n : nat) (s : string) : string :=
  match n, s with
  | 0, _ => s
  | S _, EmptyString => EmptyString
  | S n', String _ s' => slice_from n' s'
  end.

(** [sub in s] *)
Fixpoint contains (s sub : string) : bool :=
  startswith s sub ||
  match s with
  | EmptyString => false
  | String _ s' => contains s' sub
  end.

(** ** Tables *)

(** A row of [breakdowns]; columns [CU], [CHILD CU], [STOCK CODE], [QTY]. *)
Record breakdown_row : Type := mk_breakdown {
  CU : cell;
  CHILD_CU : cell;
  STOCK_CODE : cell;
  QTY : option Z
}.

(** A row of [sc_desc].  [UOI] and [Price] are [None] when the table has
    no such column, which is the case [Series.get] answers by its
    default. *)
Record sc_desc_row : Type := mk_sc_desc {
  Stock_Code1 : cell;
  Description : cell;
  UOI : option cell;
  Price : option cell
}.

(** A row of [backup_desc]. *)
Record backup_desc_row : Type := mk_backup {
  SC_backup : cell;
  backupDescrip : cell
}.

(** A row of [listings]: column name and cell, in column order. *)
Definition listing_row : Type := list (string * cell).

(** A Python dict with text keys, in insertion order. *)
Definition dict : Type := list (string * cell).

(** ** Exceptions *)

(** [RecursionError] is what the interpreter raises at its recursion
    limit.  [CyclicHierarchy] is the error named by the design document;
    it is listed so that statements about it can be written. *)
Inductive error : Type :=
| RecursionError : error
| CyclicHierarchy : string -> error.

Inductive result (A : Type) : Type :=
| Ok : A -> result A
| Raise : error -> result A.

Arguments Ok {A} _.
Arguments Raise {A} _.

Definition bind {A B : Type} (m : result A) (k : A -> result B) : result B :=
  match m with
  | Ok a => k a
  | Raise e => Raise e
  end.

Definition fmap {A B : Type} (f : A -> B) (m : result A) : result B :=
  bind m (fun a => Ok (f a)).

Notation "x <- m ;; k" := (bind m (fun x => k))
  (at level 61, m at next level, right associativity).

(** [for _, row in frame.iterrows(): state = body(state, row)] *)
Fixpoint iterrows {A S : Type} (body : S -> A -> result S)
    (frame : list A) (state : S) : result S :=
  match frame with
  | [] => Ok state
  | row :: rest => state' <- body state row ;; iterrows body rest state'
  end.

(** ** [load_data] *)

(** [lambda x: str(x).lstrip("0") if pd.notnull(x) else x] *)
Definition strip_zeros (x : cell) : cell :=
  if notna x then Str (lstrip0 (py_str x)) else x.

Definition remove_sc000_prefix (val : cell) : cell :=
  match val with
  | Str s => if startswith (lower s) "sc000" then Str (slice_from 5 s) else val
  | NaN => val
  end.

Definition clean_breakdown (r : breakdown_row) : breakdown_row :=
  {| CU := remove_sc000_prefix (CU r);
     CHILD_CU := remove_sc000_prefix (CHILD_CU r);
     STOCK_CODE := strip_zeros (STOCK_CODE r);
     QTY := QTY r |}.

Definition clean_sc_desc (r : sc_desc_row) : sc_desc_row :=
  {| Stock_Code1 := strip_zeros (Stock_Code1 r);
     Description := Description r;
     UOI := UOI r;
     Price := Price r |}.

(** [listings.loc[:, ~listings.columns.str.contains("Unnamed:")]] *)
Definition clean_listing (r : listing_row) : listing_row :=
  filter (fun kv => negb (contains (fst kv) "Unnamed:")) r.

(** [load_data], as a function of the four frames read from disk; it
    returns the tuple [(listings, breakdowns, sc_desc, backup_desc)]. *)
Definition load_data
    (listings : list listing_row) (breakdowns : list breakdown_row)
    (sc_desc : list sc_desc_row) (backup_desc : list backup_desc_row)
    : list listing_row * list breakdown_row
      * list sc_desc_row * list backup_desc_row :=
  let listings := map clean_listing listings in
  let breakdowns := map clean_breakdown breakdowns in
  let sc_desc := map clean_sc_desc sc_desc in
  (listings, breakdowns, sc_desc, backup_desc).

(** ** [recursive_breakdown] *)

Section Expansion.

Variable breakdowns : list breakdown_row.

(** The body of the loop over [subset]; [recur] is the nested call. *)
Definition breakdown_step (recur : cell -> result (list breakdown_row))
    (result_ : list breakdown_row) (row : breakdown_row)
    : result (list breakdown_row) :=
  let child_cu := CHILD_CU row in
  let stock_code := STOCK_CODE row in
  if isna stock_code && notna child_cu then
    deeper <- recur child_cu ;;
    Ok (result_ ++ deeper)
  else if notna stock_code then
    Ok (result_ ++ [row])
  else
    Ok result_.

Fixpoint recursive_breakdown (depth : nat) (cu : cell)
    : result (list breakdown_row) :=
  match depth with
  | 0 => Raise RecursionError
  | S depth' =>
      let cu_str := py_str cu in
      if negb (existsb (fun r => cell_is (CU r) cu_str) breakdowns) then
        Ok []
      else
        let subset := filter (fun r => cell_is (CU r) cu_str) breakdowns in
        iterrows (breakdown_step (recursive_breakdown depth')) subset []
  end.

End Expansion.

(** ** [get_sc_description] *)

Section Lookup.

Variable sc_desc : list sc_desc_row.
Variable backup_desc : list backup_desc_row.

Definition get_sc_description (sc_id : cell) : dict :=
  let sc_str := py_str sc_id in
  let main_info :=
    filter (fun r => String.eqb (py_str (Stock_Code1 r)) sc_str) sc_desc in
  match main_info with
  | first :: _ =>
      [ ("Description", Description first);
        ("UOI", match UOI first with Some v => v | None => Str "" end);
        ("Price", match Price first with Some v => v | None => Str "" end) ]
  | [] =>
      let backup_info :=
        filter (fun r => String.eqb (py_str (SC_backup r)) sc_str)
               backup_desc in
      match backup_info with
      | first :: _ =>
          [ ("Description", backupDescrip first);
            ("UOI", Str "");
            ("Price", Str "") ]
      | [] =>
          [ ("Description", Str "No Description Found");
            ("UOI", Str "");
            ("Price", Str "") ]
      end
  end.

End Lookup.

(** ** [get_cu_legend_info] *)

(** [row[name]] on a listings row ([None]: the row has no such
    column). *)
Fixpoint lookup_column (name : string) (r : listing_row) : option cell :=
  match r with
  | [] => None
  | (k, v) :: r' => if String.eqb k name then Some v else lookup_column name r'
  end.


(** The columns kept by [load_data] in the listings frame. *)
Definition clean_columns (columns : list string) : list string :=
  filter (fun c => negb (contains c "Unnamed:")) columns.

(** [listings[listings["Description 2"].astype(str) == str(cu)]], on the
    frame with the given columns; [None] where [listings["Description 2"]]
    raises [KeyError], the frame having no such column.  (The inner
    [None] is not met on the rows of a frame that has the column.) *)
Definition get_cu_legend_info (columns : list string)
    (listings : list listing_row) (cu : cell) : option (list listing_row) :=
  if existsb (String.eqb "Description 2") columns then
    Some (filter (fun r => match lookup_column "Description 2" r with
                           | Some v => String.eqb (py_str v) (py_str cu)
                           | None => false
                           end) listings)
  else None.

(** ** The listings search *)

(** The characters that a Python regular expression does not read as
    themselves, the dot apart. *)
Definition is_special (c : ascii) : bool :=
  existsb (Ascii.eqb c) (list_ascii_of_string "\^$*+?{}[]()|").

(** One pattern character against one subject character under
    [re.IGNORECASE]: a dot stands for any character but a newline. *)
Definition char_matches (p c : ascii) : bool :=
  if Ascii.eqb p "." then negb (Ascii.eqb c "010")
  else Ascii.eqb (lower_ascii p) (lower_ascii c).

Fixpoint match_here (pat s : string) : bool :=
  match pat, s with
  | EmptyString, _ => true
  | String _ _, EmptyString => false
  | String p pat', String c s' => char_matches p c && match_here pat' s'
  end.

Fixpoint search_from (pat s : string) : bool :=
  match_here pat s ||
  match s with
  | EmptyString => false
  | String _ s' => search_from pat s'
  end.

(** The patterns covered by the embedding: ordinary characters and dots. *)
Definition in_fragment (pat : string) : bool :=
  negb (existsb is_special (list_ascii_of_string pat)).

(** [re.compile(pat, re.IGNORECASE).search(s) is not None], which is what
    [Series.str.contains(pat, case=False)] computes cell by cell (its
    [regex] argument defaults to [True]); meaningful for the patterns of
    [in_fragment]. *)
Definition str_contains (pat s : string) : bool := search_from pat s.

(** [row.astype(str).str.contains(search_query, case=False).any()] *)
Definition row_matches (search_query : string) (row : listing_row) : bool :=
  existsb (fun kv => str_contains search_query (py_str (snd kv))) row.

(** Plain ASCII text.  Outside it Python folds case and counts
    characters by Unicode rules, which the byte-wise functions above do
    not follow. *)
Definition is_ascii (c : ascii) : bool := (nat_of_ascii c <? 128)%nat.

Definition ascii_text (s : string) : bool :=
  forallb is_ascii (list_ascii_of_string s).

Definition ascii_row (row : listing_row) : bool :=
  forallb (fun kv => ascii_text (py_str (snd kv))) row.

(** The frame stored as [search_results] by the Search button; [None]
    outside the embedded fragment: a query with special characters, or
    a query or a cell that is not plain ASCII text. *)
Definition search (listings : list listing_row) (search_query : string)
    : option (list listing_row) :=
  if in_fragment search_query && ascii_text search_query
     && forallb ascii_row listings then
    Some (filter (row_matches search_query) listings)
  else None.

(** * Vocabulary of the statements *)

(** ** Cleaning and lookup *)

(** An identifier cell that does not begin with the character 0. *)
Definition no_leading_zero (x : cell) : Prop :=
  forall s, x = Str s -> startswith s "0" = false.

(** A text made of 0 characters only. *)
Fixpoint all_zeros (s : string) : bool :=
  match s with
  | EmptyString => true
  | String c s' => Ascii.eqb c "0" && all_zeros s'
  end.

(** [id] is an identifier of the primary (of the backup) catalog, by the
    exact comparison of string forms that the lookup performs. *)
Definition in_primary (sc_desc : list sc_desc_row) (id : cell) : Prop :=
  exists r, In r sc_desc /\ py_str (Stock_Code1 r) = py_str id.

Definition in_backup (backup_desc : list backup_desc_row) (id : cell) : Prop :=
  exists r, In r backup_desc /\ py_str (SC_backup r) = py_str id.

(** The first row of a catalog, in stored order, whose identifier is [id]. *)
Definition first_primary (sc_desc : list sc_desc_row) (id : cell)
    : option sc_desc_row :=
  find (fun r => String.eqb (py_str (Stock_Code1 r)) (py_str id)) sc_desc.

Definition first_backup (backup_desc : list backup_desc_row) (id : cell)
    : option backup_desc_row :=
  find (fun r => String.eqb (py_str (SC_backup r)) (py_str id)) backup_desc.

(** The answers of the resolver, as the design document words them. *)
Definition primary_entry (r : sc_desc_row) : dict :=
  [ ("Description", Description r);
    ("UOI", match UOI r with Some v => v | None => Str "" end);
    ("Price", match Price r with Some v => v | None => Str "" end) ].

Definition backup_entry (r : backup_desc_row) : dict :=
  [ ("Description", backupDescrip r); ("UOI", Str ""); ("Price", Str "") ].

(** What the design document asks of a unit or price answer: the
    empty text when the catalog has no such field, the stored text when
    it has one; a blank cell of an existing column is left open. *)
Definition field_answer (field : option cell) (answer : cell) : Prop :=
  match field with
  | None => answer = Str ""
  | Some (Str text) => answer = Str text
  | Some NaN => True
  end.

Definition not_found : dict :=
  [ ("Description", Str "No Description Found");
    ("UOI", Str ""); ("Price", Str "") ].

(** ** The expansion *)

(** [mapM] of the [result] monad: run [f] over a list, left to right. *)
Fixpoint mapM {A B : Type} (f : A -> result B) (l : list A) : result (list B) :=
  match l with
  | [] => Ok []
  | x :: l' => y <- f x ;; ys <- mapM f l' ;; Ok (y :: ys)
  end.

(** The edges whose parent is [cu], in registry order. *)
Definition edges_of (breakdowns : list breakdown_row) (cu : cell)
    : list breakdown_row :=
  filter (fun r => cell_is (CU r) (py_str cu)) breakdowns.

(** The contribution of one edge, in the words of the design document:
    an edge with no leaf id but a child id contributes the expansion of
    its child, an edge with a leaf id contributes itself, an edge with
    neither contributes nothing. *)
Definition spec_contribution (expand : cell -> result (list breakdown_row))
    (edge : breakdown_row) : result (list breakdown_row) :=
  match STOCK_CODE edge, CHILD_CU edge with
  | NaN, Str child => expand (Str child)
  | Str _, _ => Ok [edge]
  | NaN, NaN => Ok []
  end.

(** [p] has an edge to child [c] (with or without a leaf id). *)
Definition child_edge (breakdowns : list breakdown_row) (p c : string) : Prop :=
  exists row, In row breakdowns /\ CU row = Str p /\ CHILD_CU row = Str c.

(** The edges the recursion follows: a child id and no stock code. *)
Definition descends (breakdowns : list breakdown_row) (p c : string) : Prop :=
  exists row, In row breakdowns /\ CU row = Str p /\
              STOCK_CODE row = NaN /\ CHILD_CU row = Str c.

Definition acyclic (R : relation string) : Prop :=
  forall x, ~ clos_trans string R x x.

(** A cycle of [R] can be reached from [x]. *)
Definition reaches_cycle (R : relation string) (x : string) : Prop :=
  exists c, clos_refl_trans string R x c /\ clos_trans string R c c.

(** A chain of recursion edges starting at [c]; the list holds the
    parents along it. *)
Inductive chain (breakdowns : list breakdown_row) : string -> list string -> Prop :=
| chain_nil : forall c, chain breakdowns c []
| chain_cons : forall c c' l,
    descends breakdowns c c' -> chain breakdowns c' l ->
    chain breakdowns c (c :: l).

(** The three-edge scenario and the two-edge cycle of the design
    document. *)
Definition scenario : list breakdown_row :=
  [ mk_breakdown (Str "10") (Str "20") NaN None;
    mk_breakdown (Str "20") NaN (Str "500") (Some 3%Z);
    mk_breakdown (Str "20") NaN (Str "501") (Some 1%Z) ].

Definition cycle_AB : list breakdown_row :=
  [ mk_breakdown (Str "A") (Str "B") NaN None;
    mk_breakdown (Str "B") (Str "A") NaN None ].



(** * The details view *)

(** [d[key]] on a dict ([None]: Python raises [KeyError]). *)
Fixpoint dict_get (key : string) (d : dict) : option cell :=
  match d with
  | [] => None
  | (k, v) :: d' => if String.eqb k key then Some v else dict_get key d'
  end.


(** A row of the table shown and exported by the details view: the
    breakdown row with its [SC Description], [UOI] and [Price]. *)
Record detail_row : Type := mk_detail {
  detail_breakdown : breakdown_row;
  detail_SC_Description : cell;
  detail_UOI : cell;
  detail_Price : cell
}.

(** A loop over the rows of a frame whose body may raise. *)
Fixpoint iterrows_option {A S : Type} (body : S -> A -> option S)
    (frame : list A) (state : S) : option S :=
  match frame with
  | [] => Some state
  | row :: rest =>
      match body state row with
      | Some state' => iterrows_option body rest state'
      | None => None
      end
  end.

(** [frame[name] = values], three columns at once: each assignment
    raises [ValueError] unless the list is as long as the frame. *)
Fixpoint assign_columns (frame : list breakdown_row)
    (desc_list uoi_list price_list : list cell) : option (list detail_row) :=
  match frame, desc_list, uoi_list, price_list with
  | [], [], [], [] => Some []
  | row :: frame', d :: desc_list', u :: uoi_list', p :: price_list' =>
      match assign_columns frame' desc_list' uoi_list' price_list' with
      | Some table => Some (mk_detail row d u p :: table)
      | None => None
      end
  | _, _, _, _ => None
  end.

Section Details.

Variable sc_desc : list sc_desc_row.
Variable backup_desc : list backup_desc_row.

(** The body of the loop filling [desc_list], [uoi_list] and
    [price_list]. *)
Definition details_step (lists : list cell * list cell * list cell)
    (b_row : breakdown_row) : option (list cell * list cell * list cell) :=
  let '(desc_list, uoi_list, price_list) := lists in
  let sc_id := STOCK_CODE b_row in
  let details := get_sc_description sc_desc backup_desc sc_id in
  match dict_get "Description" details,
        dict_get "UOI" details,
        dict_get "Price" details with
  | Some d, Some u, Some p =>
      Some (desc_list ++ [d], uoi_list ++ [u], price_list ++ [p])
  | _, _, _ => None
  end.

(** The table of the [SC Breakdown Details] section, from the frame
    returned by [recursive_breakdown]. *)
Definition sc_breakdown_details (breakdown_df : list breakdown_row)
    : option (list detail_row) :=
  match iterrows_option details_step breakdown_df ([], [], []) with
  | Some (desc_list, uoi_list, price_list) =>
      assign_columns breakdown_df desc_list uoi_list price_list
  | None => None
  end.

End Details.

(** * Properties *)

(** ** Text lemmas *)

Lemma startswith_cons (a b : ascii) (s p : string) :
  startswith (String b s) (String a p) = (Ascii.eqb a b && startswith s p)%bool.
Proof. reflexivity. Qed.

Lemma lstrip0_no_leading_zero (s : string) : startswith (lstrip0 s) "0" = false.
Proof.
  induction s as [|c s IH]; simpl; [reflexivity|].
  destruct (Ascii.eqb c "0") eqn:E; [exact IH|].
  rewrite startswith_cons, Ascii.eqb_sym, E. reflexivity.
Qed.

Lemma lstrip0_fixed (s : string) : startswith s "0" = false -> lstrip0 s = s.
Proof.
  destruct s as [|c s]; [reflexivity|].
  rewrite startswith_cons, Ascii.eqb_sym. simpl lstrip0.
  destruct (Ascii.eqb c "0"); [|reflexivity].
  destruct s; discriminate.
Qed.

Lemma lstrip0_idempotent (s : string) : lstrip0 (lstrip0 s) = lstrip0 s.
Proof. apply lstrip0_fixed, lstrip0_no_leading_zero. Qed.

Lemma lstrip0_all_zeros (s : string) : all_zeros s = true -> lstrip0 s = "".
Proof.
  induction s as [|c s IH]; simpl; [reflexivity|].
  destruct (Ascii.eqb c "0"); simpl; [exact IH|discriminate].
Qed.

Lemma strip_zeros_idempotent (x : cell) : strip_zeros (strip_zeros x) = strip_zeros x.
Proof.
  destruct x as [|s]; simpl; [reflexivity|].
  unfold strip_zeros; simpl. now rewrite lstrip0_idempotent.
Qed.

Lemma strip_zeros_no_leading_zero (x : cell) : no_leading_zero (strip_zeros x).
Proof.
  destruct x as [|s]; intros t; unfold strip_zeros; simpl; [discriminate|].
  intros [= <-]. apply lstrip0_no_leading_zero.
Qed.

Lemma remove_sc000_prefix_fixed (x : cell) :
  startswith (lower (py_str x)) "sc000" = false -> remove_sc000_prefix x = x.
Proof.
  destruct x as [|s]; simpl; [reflexivity|]. now intros ->.
Qed.

(** ** Cleaning at load time *)

(** C6, as stated, fails: a parent identifier keeps its leading zero. *)
Lemma load_data_keeps_parent_zero :
  ~ (let '(_, breakdowns, sc_desc, _) :=
       load_data [] [mk_breakdown (Str "010") NaN (Str "5") None] [] [] in
     Forall (fun r => no_leading_zero (CU r) /\ no_leading_zero (CHILD_CU r))
            breakdowns /\
     Forall (fun r => no_leading_zero (Stock_Code1 r)) sc_desc).
Proof.
  simpl. intros [H _]. inversion H as [|r l [Hcu _] _]; subst.
  specialize (Hcu "010" eq_refl). discriminate.
Qed.

(** C6 (amended): after [load_data], every stock code of [breakdowns]
    and every identifier of [sc_desc] is the raw text with its leading
    zeros stripped and does not begin with 0; the parent and child
    identifiers of [breakdowns] only went through
    [remove_sc000_prefix], and the backup catalog is untouched. *)
Theorem load_data_strips_stock_codes
    (listings : list listing_row) (breakdowns : list breakdown_row)
    (sc_desc : list sc_desc_row) (backup_desc : list backup_desc_row) :
  let '(_, breakdowns', sc_desc', backup_desc') :=
    load_data listings breakdowns sc_desc backup_desc in
  Forall (fun r => no_leading_zero (STOCK_CODE r)) breakdowns' /\
  Forall (fun r => no_leading_zero (Stock_Code1 r)) sc_desc' /\
  Forall2 (fun r r' =>
             STOCK_CODE r' = strip_zeros (STOCK_CODE r) /\
             CU r' = remove_sc000_prefix (CU r) /\
             CHILD_CU r' = remove_sc000_prefix (CHILD_CU r))
          breakdowns breakdowns' /\
  Forall2 (fun r r' => Stock_Code1 r' = strip_zeros (Stock_Code1 r))
          sc_desc sc_desc' /\
  backup_desc' = backup_desc.
Proof.
  unfold load_data. repeat split.
  - apply Forall_map, Forall_forall. intros r _. apply strip_zeros_no_leading_zero.
  - apply Forall_map, Forall_forall. intros r _. apply strip_zeros_no_leading_zero.
  - induction breakdowns; simpl; constructor; auto.
  - induction sc_desc; simpl; constructor; auto.
Qed.

(** C8, as stated, fails: cleaning a cleaned row changes it again when
    the prefix occurs twice, and so does the prefix strip on its own,
    with or without the zero strip before it. *)
Lemma clean_breakdown_not_idempotent :
  clean_breakdown (clean_breakdown (mk_breakdown (Str "SC000SC0001") NaN NaN None))
  <> clean_breakdown (mk_breakdown (Str "SC000SC0001") NaN NaN None) /\
  remove_sc000_prefix (remove_sc000_prefix (Str "SC000SC0001"))
  <> remove_sc000_prefix (Str "SC000SC0001") /\
  remove_sc000_prefix
    (strip_zeros (remove_sc000_prefix (strip_zeros (Str "SC000SC0001"))))
  <> remove_sc000_prefix (strip_zeros (Str "SC000SC0001")).
Proof. repeat split; discriminate. Qed.

(** C8 (amended): stripping leading zeros is idempotent, hence so is the
    cleaning of a primary-catalog row; the cleaning of a breakdown row
    is a no-op on a cleaned row whose parent and child identifiers do
    not begin with the prefix again. *)
Theorem cleaning_idempotent_without_repeated_prefix :
  (forall x, strip_zeros (strip_zeros x) = strip_zeros x) /\
  (forall r, clean_sc_desc (clean_sc_desc r) = clean_sc_desc r) /\
  (forall r,
     startswith (lower (py_str (CU (clean_breakdown r)))) "sc000" = false ->
     startswith (lower (py_str (CHILD_CU (clean_breakdown r)))) "sc000" = false ->
     clean_breakdown (clean_breakdown r) = clean_breakdown r).
Proof.
  split; [exact strip_zeros_idempotent|]. split.
  - intros r. unfold clean_sc_desc; simpl. now rewrite strip_zeros_idempotent.
  - intros r Hcu Hchild. unfold clean_breakdown in *; simpl in *.
    rewrite strip_zeros_idempotent.
    now rewrite (remove_sc000_prefix_fixed _ Hcu),
                (remove_sc000_prefix_fixed _ Hchild).
Qed.

Lemma cleaning_idempotent_witness :
  clean_breakdown
    (clean_breakdown (mk_breakdown (Str "sc000123") (Str "SC00045") (Str "007") (Some 2%Z)))
  = clean_breakdown (mk_breakdown (Str "sc000123") (Str "SC00045") (Str "007") (Some 2%Z)).
Proof.
  apply (proj2 (proj2 cleaning_idempotent_without_repeated_prefix)); reflexivity.
Defined.

(** ** The description lookup *)

Lemma find_filter {A : Type} (f : A -> bool) (l : list A) :
  find f l = hd_error (filter f l).
Proof.
  induction l as [|x l IH]; simpl; [reflexivity|].
  destruct (f x); simpl; [reflexivity|exact IH].
Qed.

Lemma get_sc_description_cases
    (sc_desc : list sc_desc_row) (backup_desc : list backup_desc_row)
    (sc_id : cell) :
  get_sc_description sc_desc backup_desc sc_id =
  match first_primary sc_desc sc_id with
  | Some r => primary_entry r
  | None =>
      match first_backup backup_desc sc_id with
      | Some r => backup_entry r
      | None => not_found
      end
  end.
Proof.
  unfold get_sc_description, first_primary, first_backup.
  rewrite !find_filter.
  destruct (filter _ sc_desc) as [|r l]; simpl; [|reflexivity].
  destruct (filter _ backup_desc) as [|r l]; reflexivity.
Qed.

Lemma in_primary_first (sc_desc : list sc_desc_row) (id : cell) :
  in_primary sc_desc id <-> exists r, first_primary sc_desc id = Some r.
Proof.
  unfold in_primary, first_primary. split.
  - intros (r & Hin & Heq).
    destruct (find _ sc_desc) as [r'|] eqn:F; [now exists r'|].
    apply (find_none _ _ F) in Hin. rewrite Heq, String.eqb_refl in Hin.
    discriminate.
  - intros (r & F). apply find_some in F as [Hin Heq].
    exists r. split; [exact Hin|]. now apply String.eqb_eq.
Qed.

Lemma in_backup_first (backup_desc : list backup_desc_row) (id : cell) :
  in_backup backup_desc id <-> exists r, first_backup backup_desc id = Some r.
Proof.
  unfold in_backup, first_backup. split.
  - intros (r & Hin & Heq).
    destruct (find _ backup_desc) as [r'|] eqn:F; [now exists r'|].
    apply (find_none _ _ F) in Hin. rewrite Heq, String.eqb_refl in Hin.
    discriminate.
  - intros (r & F). apply find_some in F as [Hin Heq].
    exists r. split; [exact Hin|]. now apply String.eqb_eq.
Qed.

Lemma find_first_match {A : Type} (f : A -> bool) (pre post : list A) (x : A) :
  Forall (fun y => f y = false) pre -> f x = true ->
  find f (pre ++ x :: post) = Some x.
Proof.
  induction 1 as [|y pre Hy _ IH]; simpl; intros Hx.
  - now rewrite Hx.
  - rewrite Hy. exact (IH Hx).
Qed.

(** C3, as stated, fails twice: in its only-if half, an identifier of
    the backup catalog whose row carries the sentinel text being
    answered by a record equal to the sentinel; and in its default, a
    blank unit cell of a primary row being answered as blank, not as the
    empty text. *)
Lemma sentinel_returned_for_listed_id :
  ~ (get_sc_description [] [mk_backup (Str "7") (Str "No Description Found")]
       (Str "7") = not_found
     <-> ~ in_primary [] (Str "7") /\
         ~ in_backup [mk_backup (Str "7") (Str "No Description Found")] (Str "7")) /\
  dict_get "UOI"
    (get_sc_description
       [mk_sc_desc (Str "501") (Str "Bolt") (Some NaN) (Some (Str "1.20"))]
       [] (Str "501"))
  <> Some (Str "").
Proof.
  split.
  - intros [H _]. destruct (H eq_refl) as [_ Hb]. apply Hb.
    eexists. split; [left; reflexivity|reflexivity].
  - discriminate.
Qed.

(** C3 (amended): an identifier of the primary catalog is answered by
    its first primary row, whatever the backup catalog holds: the row's
    description, and for unit and price the stored text, or the empty
    text when the catalog has no such field (a blank unit or price
    cell is left open).  Otherwise an identifier of the backup catalog
    is answered by its first backup row's description with empty unit
    and price; otherwise the answer is the sentinel.  Conversely the
    sentinel is returned only for an identifier absent from both
    catalogs, or when the answering row itself carries the sentinel
    text. *)
Theorem get_sc_description_two_tier
    (sc_desc : list sc_desc_row) (backup_desc : list backup_desc_row)
    (sc_id : cell) :
  (in_primary sc_desc sc_id ->
   exists r u p,
     first_primary sc_desc sc_id = Some r /\
     get_sc_description sc_desc backup_desc sc_id
     = [("Description", Description r); ("UOI", u); ("Price", p)] /\
     field_answer (UOI r) u /\ field_answer (Price r) p) /\
  (~ in_primary sc_desc sc_id -> in_backup backup_desc sc_id ->
   exists r, first_backup backup_desc sc_id = Some r /\
             get_sc_description sc_desc backup_desc sc_id = backup_entry r) /\
  (~ in_primary sc_desc sc_id -> ~ in_backup backup_desc sc_id ->
   get_sc_description sc_desc backup_desc sc_id = not_found) /\
  (get_sc_description sc_desc backup_desc sc_id = not_found ->
   (~ in_primary sc_desc sc_id /\ ~ in_backup backup_desc sc_id) \/
   (exists r, first_primary sc_desc sc_id = Some r /\
              Description r = Str "No Description Found") \/
   (exists r, first_primary sc_desc sc_id = None /\
              first_backup backup_desc sc_id = Some r /\
              backupDescrip r = Str "No Description Found")).
Proof.
  rewrite get_sc_description_cases, in_primary_first, in_backup_first.
  destruct (first_primary sc_desc sc_id) as [r|];
    [|destruct (first_backup backup_desc sc_id) as [b|]].
  - repeat split.
    + intros _. eexists r, _, _. split; [reflexivity|].
      split; [reflexivity|]. unfold field_answer.
      split; [destruct (UOI r) as [[|t]|]|destruct (Price r) as [[|t]|]];
        trivial.
    + intros H. exfalso. apply H. now exists r.
    + intros H. exfalso. apply H. now exists r.
    + intros H. right; left. exists r. split; [reflexivity|].
      unfold primary_entry, not_found in H. now injection H.
  - repeat split.
    + intros [r H]. discriminate.
    + intros _ _. now exists b.
    + intros _ H. exfalso. apply H. now exists b.
    + intros H. right; right. exists b. repeat split. now injection H.
  - repeat split.
    + intros [r H]. discriminate.
    + intros _ [r H]. discriminate.
    + intros _. left. split; intros [r H]; discriminate.
Qed.

Lemma get_sc_description_two_tier_witness :
  exists r u p,
    first_primary [mk_sc_desc (Str "501") (Str "Bolt") None (Some (Str "1.20"))]
                  (Str "501") = Some r /\
    get_sc_description
      [mk_sc_desc (Str "501") (Str "Bolt") None (Some (Str "1.20"))]
      [mk_backup (Str "501") (Str "Bracket")] (Str "501")
    = [("Description", Description r); ("UOI", u); ("Price", p)] /\
    field_answer (UOI r) u /\ field_answer (Price r) p.
Proof.
  apply (proj1 (get_sc_description_two_tier
                  [mk_sc_desc (Str "501") (Str "Bolt") None (Some (Str "1.20"))]
                  [mk_backup (Str "501") (Str "Bracket")] (Str "501"))).
  eexists. split; [left; reflexivity|reflexivity].
Defined.

(** C9: with several rows carrying the identifier, the lookup answers
    from the first of them in stored order, in the primary catalog and,
    when the primary catalog has none, in the backup catalog; the rows
    after it have no influence. *)
Theorem get_sc_description_first_duplicate
    (sc_id : cell) :
  (forall (pre post : list sc_desc_row) (r : sc_desc_row)
          (backup_desc : list backup_desc_row),
     Forall (fun x => py_str (Stock_Code1 x) <> py_str sc_id) pre ->
     py_str (Stock_Code1 r) = py_str sc_id ->
     get_sc_description (pre ++ r :: post) backup_desc sc_id
     = primary_entry r) /\
  (forall (sc_desc : list sc_desc_row)
          (pre post : list backup_desc_row) (r : backup_desc_row),
     ~ in_primary sc_desc sc_id ->
     Forall (fun x => py_str (SC_backup x) <> py_str sc_id) pre ->
     py_str (SC_backup r) = py_str sc_id ->
     get_sc_description sc_desc (pre ++ r :: post) sc_id
     = backup_entry r).
Proof.
  split.
  - intros pre post r backup_desc Hpre Hr.
    rewrite get_sc_description_cases. unfold first_primary.
    rewrite find_first_match; [reflexivity| |now apply String.eqb_eq].
    eapply Forall_impl; [|exact Hpre]. intros x Hx. now apply String.eqb_neq.
  - intros sc_desc pre post r Hno Hpre Hr.
    rewrite get_sc_description_cases.
    destruct (first_primary sc_desc sc_id) as [p|] eqn:F.
    + exfalso. apply Hno, in_primary_first. now exists p.
    + unfold first_backup.
      rewrite find_first_match; [reflexivity| |now apply String.eqb_eq].
      eapply Forall_impl; [|exact Hpre]. intros x Hx. now apply String.eqb_neq.
Qed.

Lemma get_sc_description_first_duplicate_witness :
  get_sc_description
    ([mk_sc_desc (Str "9") (Str "Nut") None None]
       ++ mk_sc_desc (Str "501") (Str "Bolt") (Some (Str "EA")) None
       :: [mk_sc_desc (Str "501") (Str "Washer") (Some (Str "BX")) None])
    [] (Str "501")
  = primary_entry (mk_sc_desc (Str "501") (Str "Bolt") (Some (Str "EA")) None).
Proof.
  apply (proj1 (get_sc_description_first_duplicate (Str "501"))).
  - constructor; [discriminate|constructor].
  - reflexivity.
Defined.

(** ** The [result] monad and the loop *)

Lemma mapM_ok_inv {A B : Type} (f : A -> result B) (l : list A) (ys : list B) :
  mapM f l = Ok ys <-> Forall2 (fun x y => f x = Ok y) l ys.
Proof.
  revert ys. induction l as [|x l IH]; simpl; intros ys.
  - split; [intros [= <-]; constructor|inversion 1; reflexivity].
  - split.
    + destruct (f x) as [y|e] eqn:Fx; simpl; [|discriminate].
      destruct (mapM f l) as [ys'|e] eqn:M; simpl; [|discriminate].
      intros [= <-]. constructor; [exact Fx|]. now apply IH.
    + inversion 1 as [|? y ? ys' Fx HF]; subst.
      rewrite Fx; simpl. apply IH in HF. rewrite HF. reflexivity.
Qed.

Lemma mapM_raise_inv {A B : Type} (f : A -> result B) (l : list A) (e : error) :
  mapM f l = Raise e -> exists x, In x l /\ f x = Raise e.
Proof.
  induction l as [|x l IH]; simpl; [discriminate|].
  destruct (f x) as [y|e'] eqn:Fx; simpl.
  - destruct (mapM f l) as [ys'|e''] eqn:M; simpl; [discriminate|].
    intros [= <-]. destruct (IH eq_refl) as (x' & Hin & Hx').
    exists x'. split; [now right|exact Hx'].
  - intros [= <-]. exists x. split; [now left|exact Fx].
Qed.


Lemma breakdown_step_contribution
    (recur : cell -> result (list breakdown_row))
    (acc : list breakdown_row) (row : breakdown_row) :
  breakdown_step recur acc row =
  (out <- spec_contribution recur row ;; Ok (acc ++ out)).
Proof.
  unfold breakdown_step, spec_contribution.
  destruct (STOCK_CODE row) as [|s], (CHILD_CU row) as [|c]; simpl;
    try reflexivity.
  now rewrite app_nil_r.
Qed.

Lemma iterrows_contributions
    (recur : cell -> result (list breakdown_row))
    (rows acc : list breakdown_row) :
  iterrows (breakdown_step recur) rows acc =
  (outs <- mapM (spec_contribution recur) rows ;; Ok (acc ++ concat outs)).
Proof.
  revert acc. induction rows as [|row rows IH]; intros acc; simpl.
  - now rewrite app_nil_r.
  - rewrite breakdown_step_contribution.
    destruct (spec_contribution recur row) as [out|e]; simpl; [|reflexivity].
    rewrite IH.
    destruct (mapM (spec_contribution recur) rows) as [outs|e]; simpl;
      [|reflexivity].
    now rewrite app_assoc.
Qed.

Lemma existsb_false_filter {A : Type} (f : A -> bool) (l : list A) :
  existsb f l = false -> filter f l = [].
Proof.
  induction l as [|x l IH]; simpl; [reflexivity|].
  destruct (f x); simpl; [discriminate|exact IH].
Qed.

(** One level of the recursion, as a concatenation of contributions. *)
Lemma recursive_breakdown_unfold
    (breakdowns : list breakdown_row) (depth : nat) (cu : cell) :
  recursive_breakdown breakdowns (S depth) cu =
  fmap (@concat breakdown_row)
       (mapM (spec_contribution (recursive_breakdown breakdowns depth))
             (edges_of breakdowns cu)).
Proof.
  unfold edges_of, fmap. simpl.
  destruct (existsb _ breakdowns) eqn:E; simpl.
  - now rewrite iterrows_contributions.
  - now rewrite (existsb_false_filter _ _ E).
Qed.

(** ** Depth *)

Lemma spec_contribution_mono
    (f g : cell -> result (list breakdown_row)) (row : breakdown_row)
    (out : list breakdown_row) :
  (forall cu o, f cu = Ok o -> g cu = Ok o) ->
  spec_contribution f row = Ok out -> spec_contribution g row = Ok out.
Proof.
  unfold spec_contribution. intros H.
  destruct (STOCK_CODE row), (CHILD_CU row); auto.
Qed.

(** A result obtained within some recursion limit is obtained within
    any larger one. *)
Lemma recursive_breakdown_deeper
    (breakdowns : list breakdown_row) (depth : nat) :
  forall cu out,
    recursive_breakdown breakdowns depth cu = Ok out ->
    recursive_breakdown breakdowns (S depth) cu = Ok out.
Proof.
  induction depth as [|depth IH]; intros cu out; [discriminate|].
  intros H. rewrite recursive_breakdown_unfold in H.
  rewrite recursive_breakdown_unfold. unfold fmap in *.
  destruct (mapM (spec_contribution (recursive_breakdown breakdowns depth))
                 (edges_of breakdowns cu)) as [outs|e] eqn:M;
    simpl in H; [|discriminate].
  injection H as <-.
  apply mapM_ok_inv in M.
  assert (M' : mapM (spec_contribution
                       (recursive_breakdown breakdowns (S depth)))
                    (edges_of breakdowns cu) = Ok outs).
  { apply mapM_ok_inv. eapply Forall2_impl; [|exact M].
    intros row o. apply spec_contribution_mono. exact IH. }
  now rewrite M'.
Qed.

Lemma recursive_breakdown_depth_le
    (breakdowns : list breakdown_row) (n m : nat) (cu : cell)
    (out : list breakdown_row) :
  n <= m ->
  recursive_breakdown breakdowns n cu = Ok out ->
  recursive_breakdown breakdowns m cu = Ok out.
Proof.
  induction 1 as [|m _ IH]; [trivial|].
  intros H. apply recursive_breakdown_deeper, IH, H.
Qed.

(** ** Failures *)

Lemma edges_of_spec (breakdowns : list breakdown_row) (cu : cell)
    (row : breakdown_row) :
  In row (edges_of breakdowns cu) <->
  In row breakdowns /\ CU row = Str (py_str cu).
Proof.
  unfold edges_of. rewrite filter_In. unfold cell_is.
  destruct (CU row) as [|p].
  - split; intros [_ H]; discriminate.
  - rewrite String.eqb_eq. split; intros [H1 H2]; split; congruence.
Qed.

Lemma spec_contribution_raise
    (f : cell -> result (list breakdown_row)) (row : breakdown_row) (e : error) :
  spec_contribution f row = Raise e ->
  exists c, STOCK_CODE row = NaN /\ CHILD_CU row = Str c /\ f (Str c) = Raise e.
Proof.
  unfold spec_contribution.
  destruct (STOCK_CODE row), (CHILD_CU row) as [|c]; try discriminate.
  intros H. now exists c.
Qed.

(** A failure at recursion limit [depth] is a [RecursionError], and it
    comes with a chain of [depth] recursion edges. *)
Lemma recursive_breakdown_raise
    (breakdowns : list breakdown_row) (depth : nat) :
  forall cu e,
    recursive_breakdown breakdowns depth cu = Raise e ->
    e = RecursionError /\
    exists l, length l = depth /\ chain breakdowns (py_str cu) l.
Proof.
  induction depth as [|depth IH]; intros cu e.
  - intros [= <-]. split; [reflexivity|]. exists []. split; [reflexivity|constructor].
  - rewrite recursive_breakdown_unfold. unfold fmap.
    destruct (mapM _ (edges_of breakdowns cu)) as [outs|e'] eqn:M; simpl;
      [discriminate|].
    intros [= <-].
    apply mapM_raise_inv in M as (row & Hin & Hrow).
    apply spec_contribution_raise in Hrow as (c & Hstock & Hchild & Hc).
    apply IH in Hc as (-> & l & Hlen & Hchain).
    split; [reflexivity|].
    apply edges_of_spec in Hin as [Hin Hcu].
    exists (py_str cu :: l). split; [simpl; congruence|].
    apply chain_cons with (c' := c); [|exact Hchain].
    exists row. auto.
Qed.

Lemma chain_parents (breakdowns : list breakdown_row) (c : string)
    (l : list string) :
  chain breakdowns c l -> incl l (map (fun r => py_str (CU r)) breakdowns).
Proof.
  induction 1 as [c|c c' l (row & Hin & Hcu & _) _ IH].
  - intros x [].
  - intros x [<-|Hx]; [|now apply IH].
    apply in_map_iff. exists row. split; [now rewrite Hcu|exact Hin].
Qed.

Lemma chain_reaches (breakdowns : list breakdown_row) (c : string)
    (l : list string) :
  chain breakdowns c l ->
  forall x, In x l -> clos_refl_trans string (descends breakdowns) c x.
Proof.
  induction 1 as [c|c c' l Hd _ IH]; intros x; [intros []|].
  intros [<-|Hx]; [apply rt_refl|].
  eapply rt_trans; [apply rt_step; exact Hd|]. now apply IH.
Qed.

Lemma clos_trans_rt (R : relation string) (x y z : string) :
  clos_trans string R x y -> clos_refl_trans string R y z ->
  clos_trans string R x z.
Proof.
  intros Hxy Hyz. revert x Hxy.
  induction Hyz as [y z H|y|y w z _ IH1 _ IH2]; intros x Hxy.
  - eapply t_trans; [exact Hxy|now apply t_step].
  - exact Hxy.
  - apply IH2, IH1, Hxy.
Qed.

Lemma clos_trans_incl (R R' : relation string) :
  (forall x y, R x y -> R' x y) ->
  forall x y, clos_trans string R x y -> clos_trans string R' x y.
Proof.
  intros H x y. induction 1 as [x y Hxy|x y z _ IH1 _ IH2].
  - now apply t_step, H.
  - eapply t_trans; eassumption.
Qed.

Lemma descends_child_edge (breakdowns : list breakdown_row) (p c : string) :
  descends breakdowns p c -> child_edge breakdowns p c.
Proof. intros (row & Hin & Hcu & _ & Hchild). now exists row. Qed.

Lemma acyclic_descends (breakdowns : list breakdown_row) :
  acyclic (child_edge breakdowns) -> acyclic (descends breakdowns).
Proof.
  intros H x Hx. apply (H x).
  eapply clos_trans_incl; [|exact Hx]. apply descends_child_edge.
Qed.

(** A ranking that decreases along every child edge rules out cycles. *)
Lemma ranked_acyclic (breakdowns : list breakdown_row) (rank : string -> nat) :
  Forall (fun row => forall p c, CU row = Str p -> CHILD_CU row = Str c ->
                                 rank c < rank p) breakdowns ->
  acyclic (child_edge breakdowns).
Proof.
  intros H.
  assert (D : forall x y, clos_trans string (child_edge breakdowns) x y ->
                          rank y < rank x).
  { intros x y. induction 1 as [x y (row & Hin & Hp & Hc)|x y z _ IH1 _ IH2].
    - rewrite Forall_forall in H. exact (H row Hin x y Hp Hc).
    - lia. }
  intros x Hx. apply D in Hx. lia.
Qed.

Lemma chain_nodup (breakdowns : list breakdown_row) (c : string)
    (l : list string) :
  acyclic (descends breakdowns) -> chain breakdowns c l -> NoDup l.
Proof.
  intros Hacyc. induction 1 as [c|c c' l Hd Hch IH]; constructor; [|exact IH].
  intros Hin. apply (Hacyc c).
  eapply clos_trans_rt; [apply t_step; exact Hd|].
  exact (chain_reaches Hch c Hin).
Qed.

Lemma chain_bounded (breakdowns : list breakdown_row) (c : string)
    (l : list string) :
  acyclic (descends breakdowns) -> chain breakdowns c l ->
  length l <= length breakdowns.
Proof.
  intros Hacyc Hch.
  rewrite <- (length_map (fun r => py_str (CU r)) breakdowns).
  apply NoDup_incl_length.
  - exact (chain_nodup Hacyc Hch).
  - exact (chain_parents Hch).
Qed.

(** On an acyclic relation the recursion returns as soon as the limit
    exceeds the number of rows, and the result no longer depends on it. *)
Lemma recursive_breakdown_returns
    (breakdowns : list breakdown_row) (cu : cell) :
  acyclic (descends breakdowns) ->
  exists out, forall depth,
    length breakdowns < depth ->
    recursive_breakdown breakdowns depth cu = Ok out.
Proof.
  intros Hacyc.
  destruct (recursive_breakdown breakdowns (S (length breakdowns)) cu)
    as [out|e] eqn:R.
  - exists out. intros depth Hd.
    eapply recursive_breakdown_depth_le; [|exact R]. lia.
  - apply recursive_breakdown_raise in R as (_ & l & Hlen & Hch).
    pose proof (chain_bounded Hacyc Hch). lia.
Qed.

(** Every returned row carries a stock code. *)
Lemma recursive_breakdown_leaves
    (breakdowns : list breakdown_row) (depth : nat) :
  forall cu out,
    recursive_breakdown breakdowns depth cu = Ok out ->
    Forall (fun row => notna (STOCK_CODE row) = true) out.
Proof.
  induction depth as [|depth IH]; intros cu out; [discriminate|].
  rewrite recursive_breakdown_unfold. unfold fmap.
  destruct (mapM _ (edges_of breakdowns cu)) as [outs|e] eqn:M; simpl;
    [|discriminate].
  intros [= <-]. apply mapM_ok_inv in M.
  induction M as [|row o rows outs Hrow _ IHM]; simpl; [constructor|].
  apply Forall_app. split; [|exact IHM].
  unfold spec_contribution in Hrow.
  destruct (STOCK_CODE row) as [|s] eqn:Hs, (CHILD_CU row) as [|c].
  - injection Hrow as <-. constructor.
  - exact (IH _ _ Hrow).
  - injection Hrow as <-. constructor; [now rewrite Hs|constructor].
  - injection Hrow as <-. constructor; [now rewrite Hs|constructor].
Qed.

(** C2: on an acyclic breakdown relation the expansion of any root
    returns (at every recursion limit above the number of rows, with
    one and the same result), and every row of the result carries a
    stock code. *)
Theorem recursive_breakdown_terminates_on_acyclic
    (breakdowns : list breakdown_row) (cu : cell) :
  acyclic (child_edge breakdowns) ->
  exists out,
    (forall depth, length breakdowns < depth ->
                   recursive_breakdown breakdowns depth cu = Ok out) /\
    Forall (fun row => notna (STOCK_CODE row) = true) out.
Proof.
  intros Hacyc. apply acyclic_descends in Hacyc.
  destruct (recursive_breakdown_returns cu Hacyc) as [out Hout].
  exists out. split; [exact Hout|].
  eapply recursive_breakdown_leaves. apply (Hout (S (length breakdowns))). lia.
Qed.

Lemma recursive_breakdown_terminates_witness :
  exists out,
    (forall depth, length scenario < depth ->
                   recursive_breakdown scenario depth (Str "10") = Ok out) /\
    Forall (fun row => notna (STOCK_CODE row) = true) out.
Proof.
  apply (@recursive_breakdown_terminates_on_acyclic scenario (Str "10")).
  apply ranked_acyclic with (rank := fun s => if String.eqb s "10" then 1 else 0).
  repeat constructor; simpl; intros p c Hp Hc;
    try discriminate; injection Hp as <-; injection Hc as <-; simpl; lia.
Defined.

(** C4: on an acyclic breakdown relation the expansion of a root is the
    concatenation, in registry order, of the contributions of the root's
    edges, the contribution of a child-only edge being the expansion of
    its child; on the three-edge scenario the expansion of 10 is the
    edge of leaf 500 followed by the edge of leaf 501. *)
Theorem recursive_breakdown_registry_order :
  (forall (breakdowns : list breakdown_row) (cu : cell),
     acyclic (child_edge breakdowns) ->
     forall depth, length breakdowns < depth ->
     exists outs,
       Forall2 (fun edge out =>
                  spec_contribution
                    (recursive_breakdown breakdowns (pred depth)) edge = Ok out)
               (edges_of breakdowns cu) outs /\
       recursive_breakdown breakdowns depth cu = Ok (concat outs)) /\
  (forall depth, 2 <= depth ->
     recursive_breakdown scenario depth (Str "10")
     = Ok [ mk_breakdown (Str "20") NaN (Str "500") (Some 3%Z);
            mk_breakdown (Str "20") NaN (Str "501") (Some 1%Z) ]).
Proof.
  split.
  - intros breakdowns cu Hacyc depth Hd.
    destruct (recursive_breakdown_returns cu (acyclic_descends Hacyc))
      as [out Hout].
    specialize (Hout depth Hd).
    destruct depth as [|depth]; [lia|]. simpl pred.
    rewrite recursive_breakdown_unfold in *. unfold fmap in *.
    destruct (mapM _ (edges_of breakdowns cu)) as [outs|e] eqn:M;
      simpl in *; [|discriminate].
    exists outs. split; [now apply mapM_ok_inv|reflexivity].
  - intros depth Hd.
    eapply recursive_breakdown_depth_le; [exact Hd|reflexivity].
Qed.

Lemma recursive_breakdown_registry_order_witness :
  exists outs,
    Forall2 (fun edge out =>
               spec_contribution (recursive_breakdown scenario 3) edge = Ok out)
            (edges_of scenario (Str "10")) outs /\
    recursive_breakdown scenario 4 (Str "10") = Ok (concat outs).
Proof.
  refine (proj1 recursive_breakdown_registry_order scenario (Str "10") _ 4 _).
  - apply ranked_acyclic with (rank := fun s => if String.eqb s "10" then 1 else 0).
    repeat constructor; simpl; intros p c Hp Hc;
      try discriminate; injection Hp as <-; injection Hc as <-; simpl; lia.
  - simpl; lia.
Defined.

(** ** Cycles *)

Lemma reaches_cycle_step (R : relation string) (x : string) :
  reaches_cycle R x -> exists y, R x y /\ reaches_cycle R y.
Proof.
  intros (c & Hrt & Hcyc).
  apply clos_rt_rt1n_iff in Hrt. destruct Hrt as [|y z Hxy Hyz].
  - pose proof Hcyc as Hcyc'.
    apply clos_trans_t1n_iff in Hcyc'.
    inversion Hcyc' as [y Hxy|y z Hxy Hyx]; subst.
    + exists x. split; [exact Hxy|]. exists x. split; [apply rt_refl|exact Hcyc].
    + exists y. split; [exact Hxy|]. exists x. split; [|exact Hcyc].
      apply clos_trans_t1n_iff in Hyx. now apply clos_t_clos_rt.
  - exists y. split; [exact Hxy|]. exists z. split; [|exact Hcyc].
    now apply clos_rt_rt1n_iff.
Qed.

Lemma Forall2_In_l {A B : Type} (P : A -> B -> Prop) (l : list A)
    (l' : list B) (x : A) :
  Forall2 P l l' -> In x l -> exists y, In y l' /\ P x y.
Proof.
  induction 1 as [|a b l l' Hab _ IH]; intros Hin; [destruct Hin|].
  destruct Hin as [<-|Hin].
  - exists b. split; [now left|exact Hab].
  - destruct (IH Hin) as (y & Hy & Hxy). exists y. split; [now right|exact Hxy].
Qed.

(** C1, as stated, fails: on the two-edge cycle no recursion limit makes
    the expansion of A fail with [CyclicHierarchy]. *)
Lemma cycle_not_reported_as_cyclic_hierarchy :
  ~ (exists depth id,
       recursive_breakdown cycle_AB depth (Str "A") = Raise (CyclicHierarchy id)).
Proof.
  intros (depth & id & H).
  apply recursive_breakdown_raise in H as [H _]. discriminate.
Qed.

(** C1 (amended): when a cycle of recursion edges (rows with a child id
    and no stock code) can be reached from the root, the expansion
    returns at no recursion limit: it recurses until the limit is hit
    and fails with [RecursionError]. *)
Theorem recursive_breakdown_cycle_exhausts_depth
    (breakdowns : list breakdown_row) (cu : cell) :
  reaches_cycle (descends breakdowns) (py_str cu) ->
  forall depth, recursive_breakdown breakdowns depth cu = Raise RecursionError.
Proof.
  intros Hcyc depth. revert cu Hcyc.
  induction depth as [|depth IH]; intros cu Hcyc; [reflexivity|].
  apply reaches_cycle_step in Hcyc
    as (y & (row & Hin & Hcu & Hstock & Hchild) & Hy).
  assert (Hrow : spec_contribution (recursive_breakdown breakdowns depth) row
                 = Raise RecursionError).
  { unfold spec_contribution. rewrite Hstock, Hchild. now apply IH. }
  assert (Hedge : In row (edges_of breakdowns cu))
    by (apply edges_of_spec; auto).
  destruct (recursive_breakdown breakdowns (S depth) cu) as [out|e] eqn:R.
  - rewrite recursive_breakdown_unfold in R. unfold fmap in R.
    destruct (mapM _ (edges_of breakdowns cu)) as [outs|e] eqn:M;
      simpl in R; [|discriminate].
    apply mapM_ok_inv in M.
    eapply Forall2_In_l in M; [|exact Hedge].
    destruct M as (o & _ & Ho). congruence.
  - apply recursive_breakdown_raise in R as [-> _]. reflexivity.
Qed.

Lemma recursive_breakdown_cycle_witness :
  recursive_breakdown cycle_AB 1000 (Str "A") = Raise RecursionError.
Proof.
  refine (@recursive_breakdown_cycle_exhausts_depth cycle_AB (Str "A") _ 1000).
  exists "A". split; [apply rt_refl|].
  apply t_trans with "B"; apply t_step.
  - exists (mk_breakdown (Str "A") (Str "B") NaN None).
    split; [simpl; auto|repeat split].
  - exists (mk_breakdown (Str "B") (Str "A") NaN None).
    split; [simpl; auto|repeat split].
Defined.

(** ** Leaf precedence and dead ends *)



Lemma filter_map_swap {A B : Type} (f : A -> B) (p : B -> bool) (l : list A) :
  filter p (map f l) = map f (filter (fun x => p (f x)) l).
Proof.
  induction l as [|x l IH]; simpl; [reflexivity|].
  rewrite IH. now destruct (p (f x)).
Qed.






Lemma leaf_edge_in_expansion
    (breakdowns : list breakdown_row) (depth : nat) (cu : cell)
    (out : list breakdown_row) (row : breakdown_row) :
  recursive_breakdown breakdowns depth cu = Ok out ->
  In row breakdowns -> CU row = Str (py_str cu) ->
  notna (STOCK_CODE row) = true ->
  In row out.
Proof.
  intros R Hin Hcu Hleaf.
  destruct depth as [|depth]; [discriminate|].
  rewrite recursive_breakdown_unfold in R. unfold fmap in R.
  destruct (mapM _ (edges_of breakdowns cu)) as [outs|e] eqn:M;
    simpl in R; [|discriminate].
  injection R as <-. apply mapM_ok_inv in M.
  eapply Forall2_In_l in M; [|apply edges_of_spec; split; eassumption].
  destruct M as (o & Ho & Hrow).
  apply in_concat. exists o. split; [exact Ho|].
  unfold spec_contribution in Hrow.
  destruct (STOCK_CODE row); [discriminate|].
  injection Hrow as <-. now left.
Qed.



(** ** The search *)





Lemma search_lowercase_query_example :
  search [[("Description 2", Str "ABC123")]; [("Description 2", Str "XYZ")]] "abc"
  = Some [[("Description 2", Str "ABC123")]].
Proof. reflexivity. Qed.

Lemma search_empty_query (listings : list listing_row) :
  forallb ascii_row listings = true ->
  Forall (fun row => row <> []) listings ->
  search listings "" = Some listings.
Proof.
  intros Ha H. unfold search; rewrite Ha; simpl. f_equal. clear Ha.
  induction H as [|row rows Hrow _ IH]; simpl; [reflexivity|].
  rewrite IH. destruct row as [|[k v] row]; [contradiction|].
  simpl. unfold str_contains. now destruct (py_str v).
Qed.

(** C7 on the query made of one dot: the listing whose only cell reads
    abc is selected, although no cell of it contains a dot. *)
Theorem search_reads_query_as_pattern :
  search [[("Description 2", Str "abc")]] "."
  = Some [[("Description 2", Str "abc")]] /\
  existsb (fun kv => contains (lower (py_str (snd kv))) (lower "."))
          [("Description 2", Str "abc")] = false.
Proof. split; reflexivity. Qed.

(** * Further properties *)

(** ** What the expansion contains *)

Lemma Forall2_In_r {A B : Type} (P : A -> B -> Prop) (l : list A)
    (l' : list B) (y : B) :
  Forall2 P l l' -> In y l' -> exists x, In x l /\ P x y.
Proof.
  induction 1 as [|a b l l' Hab _ IH]; intros Hin; [destruct Hin|].
  destruct Hin as [<-|Hin].
  - exists a. split; [now left|exact Hab].
  - destruct (IH Hin) as (x & Hx & Hxy). exists x. split; [now right|exact Hxy].
Qed.

Lemma recursive_breakdown_ok_inv
    (breakdowns : list breakdown_row) (depth : nat) (cu : cell)
    (out : list breakdown_row) :
  recursive_breakdown breakdowns (S depth) cu = Ok out ->
  exists outs,
    out = concat outs /\
    Forall2 (fun edge o =>
               spec_contribution (recursive_breakdown breakdowns depth) edge
               = Ok o)
            (edges_of breakdowns cu) outs.
Proof.
  rewrite recursive_breakdown_unfold. unfold fmap.
  destruct (mapM _ (edges_of breakdowns cu)) as [outs|e] eqn:M; simpl;
    [|discriminate].
  intros [= <-]. exists outs. split; [reflexivity|now apply mapM_ok_inv].
Qed.

Lemma expansion_sound (breakdowns : list breakdown_row) (depth : nat) :
  forall cu out row,
    recursive_breakdown breakdowns depth cu = Ok out -> In row out ->
    In row breakdowns /\ notna (STOCK_CODE row) = true /\
    exists p, CU row = Str p /\
              clos_refl_trans string (descends breakdowns) (py_str cu) p.
Proof.
  induction depth as [|depth IH]; intros cu out row R Hrow; [discriminate|].
  apply recursive_breakdown_ok_inv in R as (outs & -> & F).
  apply in_concat in Hrow as (o & Ho & Hrow).
  eapply Forall2_In_r in F; [|exact Ho].
  destruct F as (edge & Hedge & Hc).
  apply edges_of_spec in Hedge as [Hin Hcu].
  unfold spec_contribution in Hc.
  destruct (STOCK_CODE edge) as [|s] eqn:Hs.
  - destruct (CHILD_CU edge) as [|c] eqn:Hchild.
    + injection Hc as <-. destruct Hrow.
    + destruct (IH _ _ _ Hc Hrow) as (H1 & H2 & p & Hp & Hreach).
      split; [exact H1|]. split; [exact H2|]. exists p. split; [exact Hp|].
      eapply rt_trans; [|exact Hreach].
      apply rt_step. exists edge. auto.
  - injection Hc as <-. destruct Hrow as [<-|[]].
    split; [exact Hin|]. split; [now rewrite Hs|].
    exists (py_str cu). split; [exact Hcu|apply rt_refl].
Qed.

Lemma expansion_complete (breakdowns : list breakdown_row)
    (x p : string) :
  clos_refl_trans_1n string (descends breakdowns) x p ->
  forall depth cu out row,
    py_str cu = x ->
    recursive_breakdown breakdowns depth cu = Ok out ->
    In row breakdowns -> CU row = Str p -> notna (STOCK_CODE row) = true ->
    In row out.
Proof.
  induction 1 as [x|x y p (edge & Hin & Hcu & Hstock & Hchild) _ IH];
    intros depth cu out row Hx R Hrow Hp Hleaf.
  - eapply leaf_edge_in_expansion; [exact R|exact Hrow| |exact Hleaf].
    now rewrite Hx.
  - destruct depth as [|depth]; [discriminate|].
    apply recursive_breakdown_ok_inv in R as (outs & -> & F).
    eapply Forall2_In_l in F;
      [|apply edges_of_spec; split; [exact Hin|now rewrite Hx]].
    destruct F as (o & Ho & Hc).
    unfold spec_contribution in Hc. rewrite Hstock, Hchild in Hc.
    apply in_concat. exists o. split; [exact Ho|].
    exact (IH depth (Str y) o row eq_refl Hc Hrow Hp Hleaf).
Qed.

(** X1: when the expansion of a root returns, its rows are exactly the
    rows of the table that carry a stock code and whose parent is the
    root or can be reached from it through child-only rows; each such
    row is returned as stored. *)
Theorem recursive_breakdown_membership
    (breakdowns : list breakdown_row) (depth : nat) (cu : cell)
    (out : list breakdown_row) :
  recursive_breakdown breakdowns depth cu = Ok out ->
  forall row,
    In row out <->
    In row breakdowns /\ notna (STOCK_CODE row) = true /\
    exists p, CU row = Str p /\
              clos_refl_trans string (descends breakdowns) (py_str cu) p.
Proof.
  intros R row. split.
  - intros Hrow. eapply expansion_sound; eassumption.
  - intros (Hin & Hleaf & p & Hp & Hreach).
    apply clos_rt_rt1n_iff in Hreach.
    eapply expansion_complete; try eassumption. reflexivity.
Qed.

Lemma recursive_breakdown_membership_witness :
  In (mk_breakdown (Str "20") NaN (Str "501") (Some 1%Z))
     [ mk_breakdown (Str "20") NaN (Str "500") (Some 3%Z);
       mk_breakdown (Str "20") NaN (Str "501") (Some 1%Z) ]
  <->
  In (mk_breakdown (Str "20") NaN (Str "501") (Some 1%Z)) scenario /\
  notna (STOCK_CODE (mk_breakdown (Str "20") NaN (Str "501") (Some 1%Z))) = true /\
  exists p, CU (mk_breakdown (Str "20") NaN (Str "501") (Some 1%Z)) = Str p /\
            clos_refl_trans string (descends scenario) (py_str (Str "10")) p.
Proof.
  refine (@recursive_breakdown_membership scenario 2 (Str "10") _ _ _).
  reflexivity.
Defined.

(** ** When the expansion returns *)

Lemma chain_within_depth (breakdowns : list breakdown_row) (depth : nat) :
  forall cu out l,
    recursive_breakdown breakdowns depth cu = Ok out ->
    chain breakdowns (py_str cu) l -> length l < depth.
Proof.
  induction depth as [|depth IH]; intros cu out l R Hch; [discriminate|].
  inversion Hch as [|c c' l' (edge & Hin & Hcu & Hstock & Hchild) Hch']; subst;
    [simpl; lia|].
  apply recursive_breakdown_ok_inv in R as (outs & _ & F).
  eapply Forall2_In_l in F; [|apply edges_of_spec; split; eassumption].
  destruct F as (o & _ & Hc).
  unfold spec_contribution in Hc. rewrite Hstock, Hchild in Hc.
  specialize (IH (Str c') o l' Hc Hch'). simpl. lia.
Qed.

Lemma reaches_cycle_chain (breakdowns : list breakdown_row) (n : nat) :
  forall c, reaches_cycle (descends breakdowns) c ->
            exists l, length l = n /\ chain breakdowns c l.
Proof.
  induction n as [|n IH]; intros c Hc.
  - exists []. split; [reflexivity|constructor].
  - apply reaches_cycle_step in Hc as (y & Hcy & Hy).
    destruct (IH y Hy) as (l & Hlen & Hch).
    exists (c :: l). split; [simpl; congruence|].
    now apply chain_cons with y.
Qed.

Lemma chain_nodup_or_cycle (breakdowns : list breakdown_row) (c : string)
    (l : list string) :
  chain breakdowns c l ->
  NoDup l \/ reaches_cycle (descends breakdowns) c.
Proof.
  induction 1 as [c|c c' l Hd Hch IH]; [left; constructor|].
  destruct IH as [Hnd|(d & Hrt & Hcyc)].
  - destruct (in_dec string_dec c l) as [Hin|Hnotin].
    + right. exists c. split; [apply rt_refl|].
      eapply clos_trans_rt; [apply t_step; exact Hd|].
      exact (chain_reaches Hch c Hin).
    + left. now constructor.
  - right. exists d. split; [|exact Hcyc].
    eapply rt_trans; [apply rt_step; exact Hd|exact Hrt].
Qed.

(** X2: the expansion of a root returns exactly when no cycle of
    child-only rows can be reached from the root; it then returns at
    every recursion limit above the number of rows of the table. *)
Theorem recursive_breakdown_returns_iff_no_cycle
    (breakdowns : list breakdown_row) (cu : cell) :
  (~ reaches_cycle (descends breakdowns) (py_str cu) ->
   exists out, forall depth,
     length breakdowns < depth ->
     recursive_breakdown breakdowns depth cu = Ok out) /\
  (forall depth out,
     recursive_breakdown breakdowns depth cu = Ok out ->
     ~ reaches_cycle (descends breakdowns) (py_str cu)).
Proof.
  split.
  - intros Hno.
    destruct (recursive_breakdown breakdowns (S (length breakdowns)) cu)
      as [out|e] eqn:R.
    + exists out. intros depth Hd.
      eapply recursive_breakdown_depth_le; [|exact R]. lia.
    + apply recursive_breakdown_raise in R as (_ & l & Hlen & Hch).
      destruct (chain_nodup_or_cycle Hch) as [Hnd|Hcyc]; [|contradiction].
      apply NoDup_incl_length with (l' := map (fun r => py_str (CU r)) breakdowns)
        in Hnd; [|exact (chain_parents Hch)].
      rewrite length_map in Hnd. lia.
  - intros depth out R Hcyc.
    destruct (@reaches_cycle_chain breakdowns depth _ Hcyc) as (l & Hlen & Hch).
    pose proof (@chain_within_depth breakdowns depth cu out l R Hch). lia.
Qed.

Lemma recursive_breakdown_returns_iff_no_cycle_witness :
  ~ reaches_cycle (descends scenario) (py_str (Str "10")).
Proof.
  refine (proj2 (@recursive_breakdown_returns_iff_no_cycle scenario (Str "10"))
                2 _ _).
  reflexivity.
Defined.

(** X3: the recursion limit never changes an answer: two limits at
    which the expansion of a root returns give the same rows, and a
    limit above one that suffices suffices too. *)
Theorem recursive_breakdown_limit_independent
    (breakdowns : list breakdown_row) (cu : cell) (n m : nat)
    (out out' : list breakdown_row) :
  recursive_breakdown breakdowns n cu = Ok out ->
  (recursive_breakdown breakdowns m cu = Ok out' -> out' = out) /\
  (n <= m -> recursive_breakdown breakdowns m cu = Ok out).
Proof.
  intros Rn. split.
  - intros Rm. destruct (Nat.le_ge_cases n m) as [H|H].
    + pose proof (@recursive_breakdown_depth_le _ _ _ _ _ H Rn). congruence.
    + pose proof (@recursive_breakdown_depth_le _ _ _ _ _ H Rm). congruence.
  - intros H. exact (@recursive_breakdown_depth_le _ _ _ _ _ H Rn).
Qed.

Lemma recursive_breakdown_limit_independent_witness :
  recursive_breakdown scenario 1000 (Str "10")
  = Ok [ mk_breakdown (Str "20") NaN (Str "500") (Some 3%Z);
         mk_breakdown (Str "20") NaN (Str "501") (Some 1%Z) ].
Proof.
  refine (proj2 (@recursive_breakdown_limit_independent
                   scenario (Str "10") 2 1000 _ [] _) _).
  - reflexivity.
  - repeat constructor.
Defined.

(** ** Sub-assemblies *)

Lemma recursive_breakdown_py_str
    (breakdowns : list breakdown_row) (depth : nat) (cu : cell) :
  recursive_breakdown breakdowns depth (Str (py_str cu))
  = recursive_breakdown breakdowns depth cu.
Proof. destruct depth; reflexivity. Qed.

Lemma child_expansion_block
    (breakdowns : list breakdown_row) (depth : nat) (cu : cell)
    (out : list breakdown_row) (c : string) :
  recursive_breakdown breakdowns (S depth) cu = Ok out ->
  descends breakdowns (py_str cu) c ->
  exists sub pre post,
    recursive_breakdown breakdowns depth (Str c) = Ok sub /\
    out = pre ++ sub ++ post.
Proof.
  intros R (edge & Hin & Hcu & Hstock & Hchild).
  apply recursive_breakdown_ok_inv in R as (outs & -> & F).
  assert (Hedge : In edge (edges_of breakdowns cu))
    by (apply edges_of_spec; auto).
  apply in_split in Hedge as (l1 & l2 & Hl). rewrite Hl in F.
  apply Forall2_app_inv_l in F as (o1 & o2 & _ & F2 & ->).
  inversion F2 as [|? o ? o2' Hc _]; subst.
  unfold spec_contribution in Hc. rewrite Hstock, Hchild in Hc.
  exists o, (concat o1), (concat o2'). split; [exact Hc|].
  now rewrite concat_app, concat_cons.
Qed.

(** X4: the expansion of a root contains, as one contiguous block and
    in the same order, the expansion of every CU that can be reached
    from the root through child-only rows. *)
Theorem recursive_breakdown_contains_sub_expansions
    (breakdowns : list breakdown_row) (depth : nat) (cu : cell)
    (out : list breakdown_row) (p : string) :
  recursive_breakdown breakdowns depth cu = Ok out ->
  clos_refl_trans string (descends breakdowns) (py_str cu) p ->
  exists sub pre post,
    recursive_breakdown breakdowns depth (Str p) = Ok sub /\
    out = pre ++ sub ++ post.
Proof.
  intros R Hreach. apply clos_rt_rt1n_iff in Hreach.
  remember (py_str cu) as x eqn:Hx.
  revert depth cu out R Hx.
  induction Hreach as [x|x y p Hxy _ IH]; intros depth cu out R Hx.
  - exists out, [], []. subst x.
    rewrite recursive_breakdown_py_str, app_nil_r. now split.
  - destruct depth as [|depth]; [discriminate|]. subst x.
    destruct (@child_expansion_block _ _ _ _ _ R Hxy)
      as (mid & pre & post & Rm & ->).
    destruct (IH depth (Str y) mid Rm eq_refl)
      as (sub & pre' & post' & Rs & ->).
    exists sub, (pre ++ pre'), (post' ++ post).
    split; [now apply recursive_breakdown_deeper|].
    now rewrite <- !app_assoc.
Qed.

Lemma recursive_breakdown_contains_sub_expansions_witness :
  exists sub pre post,
    recursive_breakdown scenario 2 (Str "20") = Ok sub /\
    [ mk_breakdown (Str "20") NaN (Str "500") (Some 3%Z);
      mk_breakdown (Str "20") NaN (Str "501") (Some 1%Z) ]
    = pre ++ sub ++ post.
Proof.
  refine (@recursive_breakdown_contains_sub_expansions
            scenario 2 (Str "10") _ "20" _ _).
  - reflexivity.
  - apply rt_step.
    exists (mk_breakdown (Str "10") (Str "20") NaN None).
    split; [simpl; auto|repeat split].
Defined.

(** ** Leading zeros and the catalogs *)

Lemma py_str_strip_zeros (x : cell) :
  py_str (strip_zeros x) = lstrip0 (py_str x).
Proof. destruct x; reflexivity. Qed.

Lemma all_zeros_app_lstrip0 (s : string) :
  exists zeros, all_zeros zeros = true /\ s = (zeros ++ lstrip0 s)%string.
Proof.
  induction s as [|c s (zeros & Hz & Hs)].
  - exists ""%string. split; reflexivity.
  - simpl lstrip0. destruct (Ascii.eqb_spec c "0") as [->|_].
    + exists (String "0" zeros). split; [exact Hz|].
      simpl. now rewrite <- Hs.
    + exists ""%string. split; reflexivity.
Qed.

(** X5: [lstrip] removes zeros at the front and nothing else: the raw
    text is the stripped text preceded by a run of 0 characters, and
    the stripped text does not begin with 0. *)
Theorem lstrip0_only_removes_leading_zeros (s : string) :
  exists zeros,
    all_zeros zeros = true /\
    s = (zeros ++ lstrip0 s)%string /\
    startswith (lstrip0 s) "0" = false.
Proof.
  destruct (all_zeros_app_lstrip0 s) as (zeros & Hz & Hs).
  exists zeros. split; [exact Hz|]. split; [exact Hs|].
  apply lstrip0_no_leading_zero.
Qed.

(** X6: after [load_data] the primary lookup does not depend on
    zero padding: a stock code of the breakdowns and an identifier of
    the primary catalog that differ by leading zeros only meet, and the
    lookup of the cleaned stock code is answered by the cleaned form of
    a primary row whose identifier strips to the same text. *)
Theorem primary_lookup_ignores_zero_padding
    (listings : list listing_row) (breakdowns : list breakdown_row)
    (sc_desc : list sc_desc_row) (backup_desc : list backup_desc_row)
    (row : breakdown_row) (entry : sc_desc_row) :
  In row breakdowns -> In entry sc_desc ->
  lstrip0 (py_str (Stock_Code1 entry)) = lstrip0 (py_str (STOCK_CODE row)) ->
  let '(_, breakdowns', sc_desc', backup_desc') :=
    load_data listings breakdowns sc_desc backup_desc in
  exists row' answer,
    In row' breakdowns' /\
    STOCK_CODE row' = strip_zeros (STOCK_CODE row) /\
    In answer sc_desc /\
    lstrip0 (py_str (Stock_Code1 answer)) = lstrip0 (py_str (STOCK_CODE row)) /\
    get_sc_description sc_desc' backup_desc' (STOCK_CODE row')
    = primary_entry answer.
Proof.
  intros Hrow Hentry Heq. unfold load_data.
  exists (clean_breakdown row).
  assert (Hp : in_primary (map clean_sc_desc sc_desc)
                          (strip_zeros (STOCK_CODE row))).
  { exists (clean_sc_desc entry). split; [now apply in_map|].
    simpl. now rewrite !py_str_strip_zeros. }
  apply in_primary_first in Hp as (r & Hr).
  pose proof Hr as Hfind. unfold first_primary in Hfind.
  apply find_some in Hfind as [Hin Hmatch].
  apply in_map_iff in Hin as (answer & <- & Hanswer).
  apply String.eqb_eq in Hmatch. simpl in Hmatch.
  rewrite !py_str_strip_zeros in Hmatch.
  exists answer. repeat split; auto.
  - now apply in_map.
  - simpl. rewrite get_sc_description_cases, Hr. reflexivity.
Qed.

Lemma primary_lookup_ignores_zero_padding_witness :
  let '(_, breakdowns', sc_desc', backup_desc') :=
    load_data [] [mk_breakdown (Str "10") NaN (Str "00500") (Some 3%Z)]
              [mk_sc_desc (Str "0500") (Str "Bolt") (Some (Str "EA")) None] [] in
  exists row' answer,
    In row' breakdowns' /\
    STOCK_CODE row' = strip_zeros (Str "00500") /\
    In answer [mk_sc_desc (Str "0500") (Str "Bolt") (Some (Str "EA")) None] /\
    lstrip0 (py_str (Stock_Code1 answer)) = lstrip0 "00500" /\
    get_sc_description sc_desc' backup_desc' (STOCK_CODE row')
    = primary_entry answer.
Proof.
  refine (@primary_lookup_ignores_zero_padding
            [] [mk_breakdown (Str "10") NaN (Str "00500") (Some 3%Z)]
            [mk_sc_desc (Str "0500") (Str "Bolt") (Some (Str "EA")) None] []
            (mk_breakdown (Str "10") NaN (Str "00500") (Some 3%Z))
            (mk_sc_desc (Str "0500") (Str "Bolt") (Some (Str "EA")) None)
            _ _ _).
  - left; reflexivity.
  - left; reflexivity.
  - reflexivity.
Defined.

Lemma find_filter_implied {A : Type} (f g : A -> bool) (l : list A) :
  (forall x, f x = true -> g x = true) ->
  find f (filter g l) = find f l.
Proof.
  intros H. induction l as [|x l IH]; simpl; [reflexivity|].
  destruct (g x) eqn:G; simpl.
  - now rewrite IH.
  - destruct (f x) eqn:F; [|exact IH].
    rewrite (H x F) in G. discriminate.
Qed.

(** X7: the backup catalog is not cleaned, so its rows whose identifier
    begins with 0 never answer the lookup of a stock code cleaned by
    [load_data]: the answer is the same with those rows removed. *)
Theorem zero_padded_backup_rows_never_answer
    (sc_desc : list sc_desc_row) (backup_desc : list backup_desc_row)
    (raw_stock_code : cell) :
  get_sc_description sc_desc backup_desc (strip_zeros raw_stock_code)
  = get_sc_description sc_desc
      (filter (fun b => negb (startswith (py_str (SC_backup b)) "0"))
              backup_desc)
      (strip_zeros raw_stock_code).
Proof.
  rewrite !get_sc_description_cases. unfold first_backup.
  rewrite find_filter_implied; [reflexivity|].
  intros b Hb. apply String.eqb_eq in Hb.
  rewrite Hb, py_str_strip_zeros, lstrip0_no_leading_zero. reflexivity.
Qed.

(** ** The prefix strip *)

Lemma lower_sc000 (p : string) :
  lower p = "sc000" ->
  exists a b c d e, p = String a (String b (String c (String d (String e "")))).
Proof.
  destruct p as [|a [|b [|c [|d [|e [|f p]]]]]]; try discriminate.
  intros _. now exists a, b, c, d, e.
Qed.

Lemma remove_sc000_prefix_prefixed (p rest : string) :
  lower p = "sc000" ->
  remove_sc000_prefix (Str (p ++ rest)%string) = Str rest.
Proof.
  intros Hp.
  destruct (lower_sc000 p Hp) as (a & b & c & d & e & ->).
  unfold remove_sc000_prefix.
  replace (lower (String a (String b (String c (String d (String e ""))))
                  ++ rest)%string)
    with ("sc000" ++ lower rest)%string
    by (rewrite <- Hp; reflexivity).
  cbn. now destruct (lower rest).
Qed.

(** X8: [remove_sc000_prefix] removes exactly the first five
    characters when they spell sc000 in some casing, and leaves every
    other text as it is. *)
Theorem remove_sc000_prefix_exact (s : string) :
  (forall p rest,
     lower p = "sc000" ->
     remove_sc000_prefix (Str (p ++ rest)%string) = Str rest) /\
  ((startswith (lower s) "sc000" = false /\
    remove_sc000_prefix (Str s) = Str s) \/
   (exists p rest,
      s = (p ++ rest)%string /\ lower p = "sc000" /\
      remove_sc000_prefix (Str s) = Str rest)).
Proof.
  split.
  - exact remove_sc000_prefix_prefixed.
  - unfold remove_sc000_prefix.
    destruct (startswith (lower s) "sc000") eqn:E; [right|left; now split].
    destruct s as [|a [|b [|c [|d [|e rest]]]]];
      try (cbn [lower] in E; rewrite ?startswith_cons in E;
           cbn [startswith] in E; rewrite ?andb_false_r in E; discriminate).
    exists (String a (String b (String c (String d (String e ""))))), rest.
    split; [reflexivity|]. split; [|reflexivity].
    cbn [lower] in *. rewrite !startswith_cons in E.
    repeat (apply andb_prop in E as [? E]).
    repeat match goal with
           | H : Ascii.eqb _ _ = true |- _ => apply Ascii.eqb_eq in H
           end.
    congruence.
Qed.

Lemma remove_sc000_prefix_exact_witness :
  remove_sc000_prefix (Str ("Sc000" ++ "123")%string) = Str "123".
Proof.
  refine (proj1 (remove_sc000_prefix_exact "") "Sc000" "123" _).
  reflexivity.
Defined.

(** ** The listings columns *)

Lemma contains_eqb_false (k name : string) :
  contains k "Unnamed:" = true -> contains name "Unnamed:" = false ->
  String.eqb k name = false.
Proof.
  intros Hk Hn. apply String.eqb_neq. intros ->. congruence.
Qed.

Lemma lookup_column_clean_listing (name : string) (r : listing_row) :
  lookup_column name (clean_listing r)
  = if contains name "Unnamed:" then None else lookup_column name r.
Proof.
  unfold clean_listing.
  induction r as [|[k v] r IH]; simpl.
  - now destruct (contains name "Unnamed:").
  - destruct (contains k "Unnamed:") eqn:K; simpl.
    + rewrite IH. destruct (contains name "Unnamed:") eqn:N; [reflexivity|].
      now rewrite (contains_eqb_false _ _ K N).
    + destruct (String.eqb_spec k name) as [->|_]; [now rewrite K|exact IH].
Qed.

(** X9: [load_data] drops from a listings row the columns whose name
    contains [Unnamed:] and keeps every other column with its cell, in
    the same order: the cleaned row holds no dropped name, and reading
    any other column of it finds the original cell. *)
Theorem clean_listing_columns (r : listing_row) :
  Forall (fun kv => contains (fst kv) "Unnamed:" = false) (clean_listing r) /\
  (forall name,
     lookup_column name (clean_listing r)
     = if contains name "Unnamed:" then None else lookup_column name r) /\
  (Forall (fun kv => contains (fst kv) "Unnamed:" = false) r ->
   clean_listing r = r).
Proof.
  split; [|split].
  - unfold clean_listing. apply Forall_forall. intros kv Hkv.
    apply filter_In in Hkv as [_ H]. now apply negb_true_iff.
  - intros name. apply lookup_column_clean_listing.
  - intros H. unfold clean_listing.
    induction H as [|kv r' Hkv _ IH]; simpl; [reflexivity|].
    now rewrite Hkv, IH.
Qed.

Lemma clean_listing_columns_witness :
  clean_listing [("Name", Str "Pole"); ("Description 2", Str "10")]
  = [("Name", Str "Pole"); ("Description 2", Str "10")].
Proof.
  refine (proj2 (proj2 (clean_listing_columns
                          [("Name", Str "Pole"); ("Description 2", Str "10")])) _).
  repeat constructor.
Defined.

Lemma existsb_filter_implied {A : Type} (f g : A -> bool) (l : list A) :
  (forall x, f x = true -> g x = true) ->
  existsb f (filter g l) = existsb f l.
Proof.
  intros H. induction l as [|x l IH]; simpl; [reflexivity|].
  destruct (g x) eqn:G; simpl.
  - now rewrite IH.
  - destruct (f x) eqn:F; [|exact IH].
    rewrite (H x F) in G. discriminate.
Qed.

(** X10: the legend is not affected by the column cleaning: over the
    cleaned listings frame the legend of a CU is the cleaned legend of
    that CU over the raw frame, and the lookup fails for want of the
    [Description 2] column on the one exactly when it does on the
    other. *)
Theorem legend_commutes_with_cleaning
    (columns : list string) (listings : list listing_row) (cu : cell) :
  get_cu_legend_info (clean_columns columns) (map clean_listing listings) cu
  = option_map (map clean_listing) (get_cu_legend_info columns listings cu).
Proof.
  unfold get_cu_legend_info, clean_columns.
  rewrite existsb_filter_implied.
  - destruct (existsb _ columns); [|reflexivity]. simpl.
    rewrite filter_map_swap. do 2 f_equal.
    apply filter_ext. intros r. now rewrite lookup_column_clean_listing.
  - intros c Hc. apply String.eqb_eq in Hc. now subst c.
Qed.

(** ** The search: case and narrowing *)

Lemma lower_ascii_idempotent (c : ascii) :
  lower_ascii (lower_ascii c) = lower_ascii c.
Proof. destruct c as [[] [] [] [] [] [] [] []]; vm_compute; reflexivity. Qed.

Lemma lower_ascii_dot (c : ascii) :
  Ascii.eqb (lower_ascii c) "." = Ascii.eqb c ".".
Proof. destruct c as [[] [] [] [] [] [] [] []]; vm_compute; reflexivity. Qed.

Lemma lower_ascii_special (c : ascii) :
  is_special (lower_ascii c) = is_special c.
Proof. destruct c as [[] [] [] [] [] [] [] []]; vm_compute; reflexivity. Qed.

Lemma char_matches_lower (p c : ascii) :
  char_matches (lower_ascii p) c = char_matches p c.
Proof.
  unfold char_matches. now rewrite lower_ascii_dot, lower_ascii_idempotent.
Qed.

Lemma match_here_lower (pat s : string) :
  match_here (lower pat) s = match_here pat s.
Proof.
  revert s. induction pat as [|p pat IH]; intros s; [reflexivity|].
  destruct s as [|c s]; [reflexivity|].
  cbn [lower match_here]. now rewrite char_matches_lower, IH.
Qed.

Lemma search_from_lower (pat s : string) :
  search_from (lower pat) s = search_from pat s.
Proof.
  induction s as [|c s IH]; cbn [search_from].
  - now rewrite match_here_lower.
  - now rewrite match_here_lower, IH.
Qed.

Lemma in_fragment_lower (pat : string) :
  in_fragment (lower pat) = in_fragment pat.
Proof.
  unfold in_fragment. f_equal.
  induction pat as [|p pat IH]; [reflexivity|].
  cbn [lower list_ascii_of_string existsb].
  now rewrite lower_ascii_special, IH.
Qed.

Lemma is_ascii_lower (c : ascii) : is_ascii (lower_ascii c) = is_ascii c.
Proof. destruct c as [[] [] [] [] [] [] [] []]; vm_compute; reflexivity. Qed.

Lemma ascii_text_lower (s : string) : ascii_text (lower s) = ascii_text s.
Proof.
  unfold ascii_text. induction s as [|c s IH]; [reflexivity|].
  cbn [lower list_ascii_of_string forallb]. now rewrite is_ascii_lower, IH.
Qed.

Lemma search_lower (listings : list listing_row) (query : string) :
  search listings (lower query) = search listings query.
Proof.
  unfold search. rewrite in_fragment_lower, ascii_text_lower.
  destruct (in_fragment query && ascii_text query
            && forallb ascii_row listings); [|reflexivity]. f_equal.
  apply filter_ext. intros row. unfold row_matches, str_contains.
  induction row as [|kv row IH]; simpl; [reflexivity|].
  now rewrite IH, search_from_lower.
Qed.

(** X11: on plain ASCII text the case of the query does not matter:
    two queries that differ by the case of their letters A-Z only
    select the same listings, in the same order. *)
Theorem search_query_case_insensitive
    (listings : list listing_row) (query query' : string) :
  lower query = lower query' ->
  search listings query = search listings query'.
Proof.
  intros H. rewrite <- (search_lower listings query),
                    <- (search_lower listings query'), H.
  reflexivity.
Qed.

Lemma search_query_case_insensitive_witness :
  search [[("Description 2", Str "Abc-12")]; [("Description 2", Str "xyz")]] "aBC"
  = search [[("Description 2", Str "Abc-12")]; [("Description 2", Str "xyz")]] "Abc".
Proof.
  apply (@search_query_case_insensitive
           [[("Description 2", Str "Abc-12")]; [("Description 2", Str "xyz")]]
           "aBC" "Abc").
  reflexivity.
Defined.








(** ** The details view *)







Lemma get_sc_description_shape
    (sc_desc : list sc_desc_row) (backup_desc : list backup_desc_row)
    (sc_id : cell) :
  exists d u p,
    get_sc_description sc_desc backup_desc sc_id
    = [("Description", d); ("UOI", u); ("Price", p)].
Proof.
  rewrite get_sc_description_cases.
  destruct (first_primary sc_desc sc_id) as [r|];
    [|destruct (first_backup backup_desc sc_id) as [b|]];
    eexists _, _, _; reflexivity.
Qed.

Lemma details_loop
    (sc_desc : list sc_desc_row) (backup_desc : list backup_desc_row)
    (frame : list breakdown_row) :
  forall desc_list uoi_list price_list,
  exists ds us ps,
    iterrows_option (details_step sc_desc backup_desc) frame
                    (desc_list, uoi_list, price_list)
    = Some (desc_list ++ ds, uoi_list ++ us, price_list ++ ps) /\
    exists table,
      assign_columns frame ds us ps = Some table /\
      map detail_breakdown table = frame /\
      Forall (fun t =>
                get_sc_description sc_desc backup_desc
                                   (STOCK_CODE (detail_breakdown t))
                = [ ("Description", detail_SC_Description t);
                    ("UOI", detail_UOI t);
                    ("Price", detail_Price t) ]) table.
Proof.
  induction frame as [|row frame IH]; intros dl ul pl.
  - exists [], [], []. split; [now rewrite !app_nil_r|].
    exists []. repeat split. constructor.
  - destruct (get_sc_description_shape sc_desc backup_desc (STOCK_CODE row))
      as (d & u & p & Hshape).
    destruct (IH (dl ++ [d]) (ul ++ [u]) (pl ++ [p]))
      as (ds & us & ps & Hloop & table & Htable & Hbase & Hall).
    exists (d :: ds), (u :: us), (p :: ps). split.
    + cbn [iterrows_option]. unfold details_step at 1.
      rewrite Hshape. cbn [dict_get String.eqb]. simpl.
      rewrite Hloop. now rewrite <- !app_assoc.
    + exists (mk_detail row d u p :: table). repeat split.
      * simpl. now rewrite Htable.
      * simpl. now rewrite Hbase.
      * constructor; [exact Hshape|exact Hall].
Qed.

(** X15: building the details table never fails (no missing key, no
    column of the wrong length): it has one row per row of the
    expansion, in the same order, each carrying the description, unit
    and price that the lookup returns for its stock code. *)
Theorem sc_breakdown_details_table
    (sc_desc : list sc_desc_row) (backup_desc : list backup_desc_row)
    (breakdown_df : list breakdown_row) :
  exists table,
    sc_breakdown_details sc_desc backup_desc breakdown_df = Some table /\
    map detail_breakdown table = breakdown_df /\
    Forall (fun t =>
              get_sc_description sc_desc backup_desc
                                 (STOCK_CODE (detail_breakdown t))
              = [ ("Description", detail_SC_Description t);
                  ("UOI", detail_UOI t);
                  ("Price", detail_Price t) ]) table.
Proof.
  destruct (details_loop sc_desc backup_desc breakdown_df [] [] [])
    as (ds & us & ps & Hloop & table & Htable & Hrest).
  exists table. split; [|exact Hrest].
  unfold sc_breakdown_details. rewrite Hloop. exact Htable.
Qed.

(** ** Prefixed identifiers after loading *)

(** X16: the prefix strip makes prefixed identifiers meet whatever
    their casing: when a raw child-only row names its child with one
    casing of the sc000 prefix and a raw row with a stock code names
    the same CU as its parent with another, then after [load_data]
    the expansion of the first row's parent, when it returns, contains
    the cleaned second row. *)
Theorem prefixed_child_links_after_load
    (listings : list listing_row) (raw : list breakdown_row)
    (sc_desc : list sc_desc_row) (backup_desc : list backup_desc_row)
    (edge leaf : breakdown_row) (p p' id : string) :
  In edge raw -> In leaf raw ->
  notna (CU edge) = true -> STOCK_CODE edge = NaN ->
  CHILD_CU edge = Str (p ++ id)%string -> lower p = "sc000" ->
  CU leaf = Str (p' ++ id)%string -> lower p' = "sc000" ->
  notna (STOCK_CODE leaf) = true ->
  let '(_, breakdowns, _, _) := load_data listings raw sc_desc backup_desc in
  forall depth out,
    recursive_breakdown breakdowns depth (remove_sc000_prefix (CU edge)) = Ok out ->
    In (clean_breakdown leaf) out.
Proof.
  intros Hedge Hleaf Hcu Hstock Hchild Hp Hparent Hp' Hcode.
  unfold load_data. intros depth out R.
  assert (Hroot : exists q, remove_sc000_prefix (CU edge) = Str q).
  { destruct (CU edge) as [|s]; [discriminate|]. simpl.
    destruct (startswith (lower s) "sc000"); eauto. }
  destruct Hroot as [q Hq]. rewrite Hq in R.
  apply (@expansion_complete (map clean_breakdown raw) q id) with
    (depth := depth) (cu := Str q).
  - apply clos_rt_rt1n_iff, rt_step.
    exists (clean_breakdown edge). split; [now apply in_map|].
    simpl. rewrite Hq, Hstock, Hchild.
    rewrite (remove_sc000_prefix_prefixed p id Hp). auto.
  - reflexivity.
  - exact R.
  - now apply in_map.
  - simpl. rewrite Hparent. exact (remove_sc000_prefix_prefixed p' id Hp').
  - simpl. unfold strip_zeros. now rewrite Hcode.
Qed.

Lemma prefixed_child_links_after_load_witness :
  let '(_, breakdowns, _, _) :=
    load_data []
      [ mk_breakdown (Str "SC00010") (Str "sc00020") NaN None;
        mk_breakdown (Str "Sc00020") NaN (Str "0500") (Some 3%Z) ] [] [] in
  forall depth out,
    recursive_breakdown breakdowns depth
      (remove_sc000_prefix (CU (mk_breakdown (Str "SC00010") (Str "sc00020") NaN None)))
    = Ok out ->
    In (clean_breakdown (mk_breakdown (Str "Sc00020") NaN (Str "0500") (Some 3%Z)))
       out.
Proof.
  refine (@prefixed_child_links_after_load
            []
            [ mk_breakdown (Str "SC00010") (Str "sc00020") NaN None;
              mk_breakdown (Str "Sc00020") NaN (Str "0500") (Some 3%Z) ] [] []
            (mk_breakdown (Str "SC00010") (Str "sc00020") NaN None)
            (mk_breakdown (Str "Sc00020") NaN (Str "0500") (Some 3%Z))
            "sc000" "Sc000" "20" _ _ _ _ _ _ _ _ _).
  - left; reflexivity.
  - right; left; reflexivity.
  - reflexivity.
  - reflexivity.
  - reflexivity.
  - reflexivity.
  - reflexivity.
  - reflexivity.
  - reflexivity.
Defined.

(** ** Stock codes made of zeros *)

Lemma recursive_breakdown_returns_without_cycle
    (breakdowns : list breakdown_row) (cu : cell) :
  ~ reaches_cycle (descends breakdowns) (py_str cu) ->
  exists out, forall depth,
    length breakdowns < depth ->
    recursive_breakdown breakdowns depth cu = Ok out.
Proof.
  intros Hno.
  destruct (recursive_breakdown breakdowns (S (length breakdowns)) cu)
    as [out|e] eqn:R.
  - exists out. intros depth Hd.
    eapply recursive_breakdown_depth_le; [|exact R]. lia.
  - apply recursive_breakdown_raise in R as (_ & l & Hlen & Hch).
    destruct (chain_nodup_or_cycle Hch) as [Hnd|Hcyc]; [|contradiction].
    apply NoDup_incl_length with (l' := map (fun r => py_str (CU r)) breakdowns)
      in Hnd; [|exact (chain_parents Hch)].
    rewrite length_map in Hnd. lia.
Qed.

(** C10: a stock code made of 0 characters only is stored by
    [load_data] as the empty text, which is not a missing cell: the row
    is still a terminal edge.  The expansion of its parent returns it:
    it is in every frame the expansion returns and, no cycle of
    child-only rows being reachable from the parent, the expansion
    does return, at every recursion limit above the number of rows. *)
Theorem all_zero_stock_code_is_terminal
    (listings : list listing_row) (raw : list breakdown_row)
    (sc_desc : list sc_desc_row) (backup_desc : list backup_desc_row)
    (row : breakdown_row) (zeros : string) :
  In row raw -> STOCK_CODE row = Str zeros -> all_zeros zeros = true ->
  let '(_, breakdowns, _, _) := load_data listings raw sc_desc backup_desc in
  exists row',
    In row' breakdowns /\
    CU row' = remove_sc000_prefix (CU row) /\
    CHILD_CU row' = remove_sc000_prefix (CHILD_CU row) /\
    QTY row' = QTY row /\
    STOCK_CODE row' = Str "" /\
    notna (STOCK_CODE row') = true /\
    (forall depth cu out,
       CU row' = Str (py_str cu) ->
       recursive_breakdown breakdowns depth cu = Ok out ->
       In row' out) /\
    (forall cu,
       CU row' = Str (py_str cu) ->
       ~ reaches_cycle (descends breakdowns) (py_str cu) ->
       exists out,
         (forall depth, length breakdowns < depth ->
                        recursive_breakdown breakdowns depth cu = Ok out) /\
         In row' out).
Proof.
  intros Hin Hstock Hzeros. unfold load_data.
  assert (Hs : STOCK_CODE (clean_breakdown row) = Str "").
  { unfold clean_breakdown, strip_zeros; simpl.
    rewrite Hstock; simpl. now rewrite lstrip0_all_zeros. }
  assert (Hmem : forall depth cu out,
             CU (clean_breakdown row) = Str (py_str cu) ->
             recursive_breakdown (map clean_breakdown raw) depth cu = Ok out ->
             In (clean_breakdown row) out).
  { intros depth cu out Hcu R.
    eapply leaf_edge_in_expansion;
      [exact R|now apply in_map|exact Hcu|now rewrite Hs]. }
  exists (clean_breakdown row). repeat split.
  - now apply in_map.
  - exact Hs.
  - now rewrite Hs.
  - exact Hmem.
  - intros cu Hcu Hno.
    destruct (recursive_breakdown_returns_without_cycle _ Hno) as [out Hout].
    exists out. split; [exact Hout|].
    apply (Hmem (S (length (map clean_breakdown raw))) cu out Hcu).
    apply Hout. lia.
Qed.

Lemma all_zero_stock_code_witness :
  recursive_breakdown
    [mk_breakdown (Str "12") NaN (Str "") (Some 4%Z)] 2 (Str "12")
  = Ok [mk_breakdown (Str "12") NaN (Str "") (Some 4%Z)] /\
  exists out,
    (forall depth,
       length [mk_breakdown (Str "12") NaN (Str "") (Some 4%Z)] < depth ->
       recursive_breakdown
         [mk_breakdown (Str "12") NaN (Str "") (Some 4%Z)] depth (Str "12")
       = Ok out) /\
    In (mk_breakdown (Str "12") NaN (Str "") (Some 4%Z)) out.
Proof.
  split; [reflexivity|].
  destruct (@all_zero_stock_code_is_terminal
              [] [mk_breakdown (Str "SC00012") NaN (Str "000") (Some 4%Z)] [] []
              (mk_breakdown (Str "SC00012") NaN (Str "000") (Some 4%Z)) "000"
              (or_introl eq_refl) eq_refl eq_refl)
    as (row' & Hin & Hcu & Hchild & Hqty & Hstock & _ & _ & Hret).
  destruct Hin as [<-|[]].
  apply (Hret (Str "12")); [reflexivity|].
  intros Hcyc. apply reaches_cycle_step in Hcyc as (y & (r & Hr & _ & Hs & _) & _).
  destruct Hr as [<-|[]]. discriminate.
Defined.
